(** * Doofinder bulk ingestion and search clients: a shallow embedding

    The development follows [src/doofinder/ingestion.py] and
    [src/doofinder/search.py].  Python values are the JSON values the two
    programs load and send; exceptions are an explicit error type; the clock,
    the UUID generator, the thread-pool scheduler and the remote HTTP service
    are oracles of an environment record, and every HTTP request the code
    issues is appended to a log carried by the state. *)

From Stdlib Require Import ZArith Lia SpecFloat Ascii.
From stdpp Require Import base option list strings gmap pretty.

Local Open Scope Z_scope.
Set Warnings "-register-all".

(** ** Python values, exceptions and the state-and-exception monad *)
Module Py.

(** JSON-shaped Python values.  A [dict] keeps its insertion order, which is
    the order in which [.items()] iterates. *)
Inductive pyval : Type :=
| PNone
| PBool (b : bool)
| PInt (z : Z)
| PFloat (f : spec_float)
| PStr (s : string)
| PList (l : list pyval)
| PDict (d : list (string * pyval)).

Inductive exn : Type :=
| KeyError (key : string)
| AttributeError (msg : string)
| TypeError (msg : string)
| ValueError (msg : string)
| HTTPError (msg : string)
| RequestException (msg : string)
| JSONDecodeError (msg : string)
| OSError (msg : string).

(** [str(e)] for the exceptions above; [str(KeyError(k))] is the [repr] of
    the key. *)
Definition str_exn (e : exn) : string :=
  match e with
  | KeyError k => "'" +:+ k +:+ "'"
  | AttributeError m | TypeError m | ValueError m | HTTPError m
  | RequestException m | JSONDecodeError m | OSError m => m
  end.

Definition type_name (v : pyval) : string :=
  match v with
  | PNone => "NoneType"
  | PBool _ => "bool"
  | PInt _ => "int"
  | PFloat _ => "float"
  | PStr _ => "str"
  | PList _ => "list"
  | PDict _ => "dict"
  end.

(** Truth value testing, as in [if filters:]. *)
Definition truthy (v : pyval) : bool :=
  match v with
  | PNone => false
  | PBool b => b
  | PInt z => negb (z =? 0)
  | PFloat (S754_zero _) => false
  | PFloat _ => true
  | PStr "" => false
  | PStr _ => true
  | PList [] => false
  | PList _ => true
  | PDict [] => false
  | PDict _ => true
  end.

(** Lookup in a dict: the entry stored under key [k], if any. *)
Fixpoint dict_lookup (k : string) (d : list (string * pyval)) : option pyval :=
  match d with
  | [] => None
  | (k', v) :: d' => if decide (k = k') then Some v else dict_lookup k d'
  end.


(** [v.get] / [v.items]: only a dict has these attributes. *)
Definition dict_method (attr : string) (v : pyval) : exn + list (string * pyval) :=
  match v with
  | PDict d => inr d
  | _ => inl (AttributeError
                ("'" +:+ type_name v +:+ "' object has no attribute '" +:+ attr +:+ "'"))
  end.

(** [d.get(k, dflt)] *)
Definition dict_get (d : list (string * pyval)) (k : string) (dflt : pyval) : pyval :=
  default dflt (dict_lookup k d).

(** [d[k]] *)
Definition dict_subscript (d : list (string * pyval)) (k : string) : exn + pyval :=
  match dict_lookup k d with
  | Some v => inr v
  | None => inl (KeyError k)
  end.

(** [len(v)] *)
Definition py_len (v : pyval) : exn + Z :=
  match v with
  | PStr s => inr (Z.of_nat (String.length s))
  | PList l => inr (Z.of_nat (length l))
  | PDict d => inr (Z.of_nat (length d))
  | _ => inl (TypeError ("object of type '" +:+ type_name v +:+ "' has no len()"))
  end.

(** Iteration, as in [for p in products]: a list yields its elements, a dict
    its keys, a string its characters; anything else is not iterable. *)
Fixpoint chars (s : string) : list pyval :=
  match s with
  | EmptyString => []
  | String c s' => PStr (String c EmptyString) :: chars s'
  end.

Definition py_iter (v : pyval) : exn + list pyval :=
  match v with
  | PList l => inr l
  | PDict d => inr (PStr <$> d.*1)
  | PStr s => inr (chars s)
  | _ => inl (TypeError ("'" +:+ type_name v +:+ "' object is not iterable"))
  end.

(** Computations that may raise, and computations that also read and extend
    a state [W] (the log of effects).  Both are monads for stdpp's notation
    [x ← m; k]. *)
Global Instance exn_ret : MRet (sum exn) := λ A a, inr a.
Global Instance exn_bind : MBind (sum exn) := λ A B k m,
  match m with
  | inr a => k a
  | inl e => inl e
  end.

Definition M (W A : Type) : Type := W → W * (exn + A).

Global Instance M_ret {W} : MRet (M W) := λ A a w, (w, inr a).
Global Instance M_bind {W} : MBind (M W) := λ A B k m w,
  match m w with
  | (w', inr a) => k a w'
  | (w', inl e) => (w', inl e)
  end.

Definition raise {W A} (e : exn) : M W A := λ w, (w, inl e).
Definition lift {W A} (r : exn + A) : M W A := λ w, (w, r).

(** [try: m  except Exception as e: h e] *)
Definition try_except {W A} (m : M W A) (h : exn → M W A) : M W A :=
  λ w, match m w with
       | (w', inr a) => (w', inr a)
       | (w', inl e) => h e w'
       end.

(** [for x in l: acc = f(acc, x)] where the body may raise. *)
Fixpoint foldM {A B} (f : A → B → exn + A) (acc : A) (l : list B) : exn + A :=
  match l with
  | [] => inr acc
  | x :: l' => acc' ← f acc x; foldM f acc' l'
  end.

(** [enumerate(l)] *)
Definition enumerate {A} (l : list A) : list (nat * A) := zip (seq 0 (length l)) l.

(** [v[k]] with a string key *)
Definition py_subscript (v : pyval) (k : string) : exn + pyval :=
  match v with
  | PDict d => dict_subscript d k
  | PList _ | PStr _ =>
      inl (TypeError (type_name v +:+ " indices must be integers or slices, not str"))
  | _ => inl (TypeError ("'" +:+ type_name v +:+ "' object is not subscriptable"))
  end.

(** [range(start, stop, step)]: the indices are produced one by one while
    they stay before [stop]; [fuel] bounds the number of iterations. *)
Fixpoint range_up (fuel : nat) (i stop step : Z) : list Z :=
  match fuel with
  | O => []
  | S fuel' => if i <? stop then i :: range_up fuel' (i + step) stop step else []
  end.

Fixpoint range_down (fuel : nat) (i stop step : Z) : list Z :=
  match fuel with
  | O => []
  | S fuel' => if stop <? i then i :: range_down fuel' (i + step) stop step else []
  end.

Definition py_range (start stop step : Z) : exn + list Z :=
  if step =? 0 then inl (ValueError "range() arg 3 must not be zero")
  else if 0 <? step then inr (range_up (Z.to_nat (stop - start)) start stop step)
  else inr (range_down (Z.to_nat (start - stop)) start stop step).

(** [l[i:j]]: negative bounds count from the end, and both are clamped. *)
Definition slice_bound (len i : Z) : Z :=
  if i <? 0 then Z.max 0 (i + len) else Z.min i len.

Definition py_slice {A} (l : list A) (i j : Z) : list A :=
  let len := Z.of_nat (length l) in
  let lo := slice_bound len i in
  let hi := slice_bound len j in
  take (Z.to_nat (hi - lo)) (drop (Z.to_nat lo) l).

(** The remote service as seen through [requests]. *)
Inductive http_method := GET | POST.

Record http_request := {
  req_method : http_method;
  req_url : string;
  req_headers : list (string * string);
  req_params : gmap string pyval;
  req_json : option pyval;
  req_timeout : option Z;
}.

(** What the network does with a request: the call raises (connection error,
    timeout), or a response comes back with a status line and a body that may
    or may not parse as JSON. *)
Inductive http_outcome :=
| TransportFailure (msg : string)
| Responds (status : Z) (reason : string) (body : option pyval).

Record response := {
  status_code : Z;
  reason : string;
  url : string;
  json_body : option pyval;
}.

(** [response.raise_for_status()] of [requests]: 4xx and 5xx raise. *)
Definition raise_for_status (r : response) : exn + unit :=
  if (400 <=? status_code r) && (status_code r <? 500) then
    inl (HTTPError (pretty (status_code r) +:+ " Client Error: " +:+ reason r
                    +:+ " for url: " +:+ url r))
  else if (500 <=? status_code r) && (status_code r <? 600) then
    inl (HTTPError (pretty (status_code r) +:+ " Server Error: " +:+ reason r
                    +:+ " for url: " +:+ url r))
  else inr tt.

(** [response.json()] *)
Definition response_json (r : response) : exn + pyval :=
  match json_body r with
  | Some v => inr v
  | None => inl (JSONDecodeError "Expecting value: line 1 column 1 (char 0)")
  end.

(** The answer of the network to request [rq], as a value or an exception. *)
Definition receive (rq : http_request) (o : http_outcome) : exn + response :=
  match o with
  | TransportFailure m => inl (RequestException m)
  | Responds st rs body =>
      inr {| status_code := st; reason := rs; url := req_url rq; json_body := body |}
  end.

End Py.

(** ** The ingestion tool, [ingestion.py] *)
Module Ingestion.
Import Py.

(** The surroundings of one run: the clock, [str] on floats, the file system,
    the remote service (its answer may depend on everything sent so far) and
    the order in which the pool's futures complete. *)
Record env := {
  time_time : nat → spec_float;
  str_float : spec_float → string;
  load_json : string → exn + pyval;
  remote : list http_request → http_request → http_outcome;
  completion : list nat;
}.

Record world := {
  clock_reads : nat;
  sent : list http_request;
}.

Definition initial_world : world := {| clock_reads := 0; sent := [] |}.

Record DoofinderIngestion := {
  hashid : string;
  api_key : string;
  search_zone : string;
  batch_size : Z;
  base_url : string;
  headers : list (string * string);
}.

Definition new_client (hashid api_key search_zone : string) (batch_size : Z)
  : DoofinderIngestion :=
  {| hashid := hashid;
     api_key := api_key;
     search_zone := search_zone;
     batch_size := batch_size;
     base_url := "https://" +:+ search_zone +:+ "-search.doofinder.com/6/" +:+ hashid;
     headers := [("Content-Type", "application/json");
                 ("Authorization", "Token " +:+ api_key)] |}.

Record args := {
  arg_hashid : string;
  arg_token : string;
  arg_file : string;
  arg_workers : Z;
  arg_batch_size : Z;
  arg_zone : string;
  arg_index : string;
}.

(** What the end of [main] prints. *)
Record report := {
  total_products : Z;
  successful_imports : Z;
  failed_imports : Z;
  error_details : list pyval;
}.

(** The values [main] holds when it reaches the replace decision; [futures]
    are the results of the submitted uploads, in submission order. *)
Record uploaded := {
  transformed_products : list pyval;
  batches : list (list pyval);
  temp_index : string;
  futures : list pyval;
  success_count : Z;
  error_count : Z;
  error_batches : list pyval;
}.

Section Run.
Variable E : env.

(** [time.time()] *)
Definition read_clock : M world spec_float :=
  λ w, ({| clock_reads := S (clock_reads w); sent := sent w |},
        inr (time_time E (clock_reads w))).

(** [requests.post(endpoint, headers=..., json=..., timeout=...)] *)
Definition requests_post (endpoint : string) (hdrs : list (string * string))
    (json : option pyval) (timeout : option Z) : M world response :=
  λ w, let rq := {| req_method := POST; req_url := endpoint; req_headers := hdrs;
                    req_params := ∅; req_json := json; req_timeout := timeout |} in
       ({| clock_reads := clock_reads w; sent := sent w ++ [rq] |},
        receive rq (remote E (sent w) rq)).

Definition create_temporary_index (self : DoofinderIngestion) (name : string)
  : M world string :=
  let endpoint := base_url self +:+ "/indices/" +:+ name +:+ "_temp" in
  response ← requests_post endpoint (headers self) None None;
  lift (raise_for_status response);;
  mret (name +:+ "_temp").

Definition ingest_batch (self : DoofinderIngestion) (index_name : string)
    (products : list pyval) : M world pyval :=
  let endpoint := base_url self +:+ "/items/" +:+ index_name in
  try_except
    (response ← requests_post endpoint (headers self) (Some (PList products)) (Some 30);
     lift (raise_for_status response);;
     data ← lift (response_json response);
     mret (PDict [("success", PBool true); ("data", data)]))
    (λ e, mret (PDict [("success", PBool false);
                       ("error", PStr (str_exn e));
                       ("products", PList products)])).

Definition replace_index (self : DoofinderIngestion) (temp_index final_index : string)
  : M world unit :=
  let endpoint :=
    base_url self +:+ "/indices/" +:+ temp_index +:+ "/replace/" +:+ final_index in
  response ← requests_post endpoint (headers self) None None;
  lift (raise_for_status response).

Definition transform_product (product : pyval) : M world pyval :=
  get ← lift (dict_method "get" product);
  now ← read_clock;
  let id := dict_get get "platform_id" (PStr (str_float E now)) in
  title ← lift (dict_subscript get "title");
  mret (PDict [("id", id);
               ("title", title);
               ("description", dict_get get "description" (PStr ""));
               ("image_url", dict_get get "image_url" (PStr ""));
               ("link", dict_get get "url" (PStr ""));
               ("price", dict_get get "price" (PFloat (S754_zero false)));
               ("categories", dict_get get "category" (PList []));
               ("availability", PStr "in stock")]).

(** [[transformed_products[i : i + batch_size] for i in range(0, len(...), batch_size)]] *)
Definition make_batches (transformed_products : list pyval) (batch_size : Z)
  : exn + list (list pyval) :=
  starts ← py_range 0 (Z.of_nat (length transformed_products)) batch_size;
  mret (map (λ i, py_slice transformed_products i (i + batch_size)) starts).

(** [as_completed(futures)]: the pending future named by the next scheduler
    pick completes next. *)
Fixpoint complete {A} (n : nat) (picks : list nat) (pending : list A) : list A :=
  match n with
  | O => []
  | S n' =>
      let k := (hd 0%nat picks `mod` length pending)%nat in
      match pending !! k with
      | Some a => a :: complete n' (tl picks) (delete k pending)
      | None => []
      end
  end.

Definition as_completed {A} (futures : list A) : list A :=
  complete (length futures) (completion E) futures.

(** The body of the [for future in as_completed(futures)] loop. *)
Definition tally (acc : Z * Z * list pyval) (result : pyval)
  : exn + (Z * Z * list pyval) :=
  let '(success_count, error_count, error_batches) := acc in
  success ← py_subscript result "success";
  if truthy success then
    data ← py_subscript result "data";
    n ← py_len data;
    mret (success_count + n, error_count, error_batches)
  else
    products ← py_subscript result "products";
    n ← py_len products;
    mret (success_count, error_count + n, error_batches ++ [result]).

(** [with ThreadPoolExecutor(max_workers=...)] and the submissions: every
    batch is submitted, and each future runs [ingest_batch] once.  The log
    lists the uploads in submission order; as the answer of [remote] may
    depend on the log, every assignment of outcomes to batches is covered.
    The order in which the results reach the loop is that of
    [as_completed]. *)
Definition run_pool (client : DoofinderIngestion) (workers : Z) (temp_index : string)
    (batches : list (list pyval)) : M world (list pyval) :=
  if workers <=? 0 then raise (ValueError "max_workers must be greater than 0")
  else mapM (ingest_batch client temp_index) batches.

(** [main] from the client's creation to the end of the aggregation loop. *)
Definition upload (a : args) : M world uploaded :=
  let client := new_client (arg_hashid a) (arg_token a) (arg_zone a) (arg_batch_size a) in
  products ← lift (load_json E (arg_file a));
  items ← lift (py_iter products);
  transformed_products ← mapM transform_product items;
  batches ← lift (make_batches transformed_products (arg_batch_size a));
  temp_index ← create_temporary_index client (arg_index a);
  futures ← run_pool client (arg_workers a) temp_index batches;
  '(success_count, error_count, error_batches) ←
    lift (foldM tally (0, 0, []) (as_completed futures));
  mret {| transformed_products := transformed_products;
          batches := batches;
          temp_index := temp_index;
          futures := futures;
          success_count := success_count;
          error_count := error_count;
          error_batches := error_batches |}.

(** The [try] block of [main]. *)
Definition main_try (a : args) : M world report :=
  let client := new_client (arg_hashid a) (arg_token a) (arg_zone a) (arg_batch_size a) in
  u ← upload a;
  (if 0 <? success_count u
   then replace_index client (temp_index u) (arg_index a)
   else mret tt);;
  mret {| total_products := Z.of_nat (length (transformed_products u));
          successful_imports := success_count u;
          failed_imports := error_count u;
          error_details := error_batches u |}.

(** [main]: the exit status of the process. *)
Definition main (a : args) : M world Z :=
  try_except (main_try a;; mret 0) (λ _, mret 1).

End Run.

(** The request of the replace operation, and whether a log holds it. *)
Definition replace_endpoint (a : args) : string :=
  base_url (new_client (arg_hashid a) (arg_token a) (arg_zone a) (arg_batch_size a))
  +:+ "/indices/" +:+ (arg_index a +:+ "_temp") +:+ "/replace/" +:+ arg_index a.

Definition replace_invoked (a : args) (log : list http_request) : Prop :=
  ∃ rq, rq ∈ log ∧ req_method rq = POST ∧ req_url rq = replace_endpoint a.

(** The request [ingest_batch] posts, and what its [try] block evaluates to
    when the log of earlier requests is [log]. *)
Definition upload_request (self : DoofinderIngestion) (index_name : string)
    (products : list pyval) : http_request :=
  {| req_method := POST;
     req_url := base_url self +:+ "/items/" +:+ index_name;
     req_headers := headers self;
     req_params := ∅;
     req_json := Some (PList products);
     req_timeout := Some 30 |}.

Definition attempt (E : env) (log : list http_request) (rq : http_request)
  : exn + pyval :=
  response ← receive rq (remote E log rq);
  raise_for_status response;;
  response_json response.

Definition create_request (self : DoofinderIngestion) (name : string) : http_request :=
  {| req_method := POST;
     req_url := base_url self +:+ "/indices/" +:+ name +:+ "_temp";
     req_headers := headers self;
     req_params := ∅;
     req_json := None;
     req_timeout := None |}.

Definition replace_request (a : args) : http_request :=
  {| req_method := POST;
     req_url := replace_endpoint a;
     req_headers :=
       headers (new_client (arg_hashid a) (arg_token a) (arg_zone a) (arg_batch_size a));
     req_params := ∅;
     req_json := None;
     req_timeout := None |}.

(** The entry of a batch result under [key], if it has one. *)
Definition entry (key : string) (result : pyval) : option pyval :=
  match result with
  | PDict d => dict_lookup key d
  | _ => None
  end.

(** Reading a batch result: did the upload succeed, and how many items does
    the entry under [key] hold. *)
Definition succeeded (result : pyval) : bool :=
  match py_subscript result "success" with
  | inr v => truthy v
  | inl _ => false
  end.

Definition count_of (key : string) (result : pyval) : Z :=
  match py_subscript result key ≫= py_len with
  | inr n => n
  | inl _ => 0
  end.

Definition returned_items (result : pyval) : Z :=
  if succeeded result then count_of "data" result else 0.

Definition failed_items (result : pyval) : Z :=
  if succeeded result then 0 else count_of "products" result.

Definition sumZ (l : list Z) : Z := foldr Z.add 0 l.

(** The two shapes of a batch result for the batch [products]. *)
Inductive batch_result (products : list pyval) : pyval → Prop :=
| batch_success (data : pyval) :
    batch_result products (PDict [("success", PBool true); ("data", data)])
| batch_failure (error : string) :
    batch_result products (PDict [("success", PBool false);
                                  ("error", PStr error);
                                  ("products", PList products)]).

(** An output field holds the record's entry when there is one, and the
    default otherwise. *)
Definition keeps_or_defaults (product item : list (string * pyval))
    (src dst : string) (dflt : pyval) : Prop :=
  match dict_lookup src product with
  | Some v => dict_lookup dst item = Some v
  | None => dict_lookup dst item = Some dflt
  end.

(** The batches cut from position [i] on. *)
Definition batches_from {A} (items : list A) (size : Z) (fuel : nat) (i : Z)
  : list (list A) :=
  map (λ j, py_slice items j (j + size))
      (range_up fuel i (Z.of_nat (length items)) size).

(** Sample runs.  [env_echo]: five titled products; the service answers an
    upload with the list it received, except that the second upload times
    out.  [env_empty]: one product; the service answers every request with an
    empty list. *)
Definition titled (t : string) : pyval := PDict [("title", PStr t)].

Definition env_echo : env :=
  {| time_time := λ k, S754_finite false 1 (Z.of_nat k);
     str_float := λ _, "1700000000.25";
     load_json := λ _, inr (PList [titled "a"; titled "b"; titled "c"; titled "d";
                                   titled "e"]);
     remote := λ log rq,
       match req_json rq with
       | Some (PList items) =>
           if (length log =? 2)%nat then TransportFailure "Read timed out."
           else Responds 200 "OK" (Some (PList items))
       | _ => Responds 200 "OK" (Some (PDict []))
       end;
     completion := [2; 0; 1]%nat |}.

Definition env_empty : env :=
  {| time_time := λ k, S754_finite false 1 (Z.of_nat k);
     str_float := λ _, "1700000000.25";
     load_json := λ _, inr (PList [titled "a"]);
     remote := λ _ _, Responds 200 "OK" (Some (PList []));
     completion := [] |}.

Definition env_untitled : env :=
  {| time_time := λ k, S754_finite false 1 (Z.of_nat k);
     str_float := λ _, "1700000000.25";
     load_json := λ _, inr (PList [titled "a"; PDict [("url", PStr "http://x/")]]);
     remote := λ _ _, Responds 200 "OK" (Some (PList []));
     completion := [] |}.

Definition sample_args (size : Z) : args :=
  {| arg_hashid := "abc123";
     arg_token := "secret";
     arg_file := "products.json";
     arg_workers := 5;
     arg_batch_size := size;
     arg_zone := "eu1";
     arg_index := "product" |}.

End Ingestion.

(** ** The search tool, [search.py] *)
Module Search.
Import Py.

(** The surroundings of the search client: [uuid4_str k] is [str(uuid4())] of
    the [k]-th identifier the generator hands out, and [remote] is the
    service. *)
Record env := {
  uuid4_str : nat → string;
  remote : list http_request → http_request → http_outcome;
}.

Record world := {
  uuid_draws : nat;
  sent : list http_request;
}.

Definition initial_world : world := {| uuid_draws := 0; sent := [] |}.

Record DoofinderSearch := {
  hashid : string;
  api_key : string;
  search_zone : string;
  base_url : string;
  headers : list (string * string);
}.

Definition new_client (hashid api_key search_zone : string) : DoofinderSearch :=
  {| hashid := hashid;
     api_key := api_key;
     search_zone := search_zone;
     base_url := "https://" +:+ search_zone +:+ "-search.doofinder.com/6/" +:+ hashid;
     headers := [("Authorization", "Token " +:+ api_key)] |}.

(** The parameters [search] has built when it issues its request. *)
Definition search_params (session_id : string) (query : string) (page rpp : Z)
    (indices filters sort facets query_name : pyval) : exn + gmap string pyval :=
  let params : gmap string pyval :=
    <["session_id" := PStr session_id]>
      (<["rpp" := PInt rpp]> (<["page" := PInt page]> (<["query" := PStr query]> ∅))) in
  let params := if truthy indices then <["indices[]" := indices]> params else params in
  params ←
    (if truthy filters then
       items ← dict_method "items" filters;
       foldM (λ (params : gmap string pyval) '(field, conditions),
                match conditions with
                | PDict ops =>
                    inr (foldl (λ (params : gmap string pyval) '(op, value),
                                  <["filter[" +:+ field +:+ "][" +:+ op +:+ "]" := value]> params)
                               params ops)
                | _ => inr (<["filter[" +:+ field +:+ "][]" := conditions]> params)
                end) params items
     else inr params);
  params ←
    (if truthy sort then
       entries ← py_iter sort;
       foldM (λ (params : gmap string pyval) '(idx, sort_param),
                items ← dict_method "items" sort_param;
                inr (foldl (λ (params : gmap string pyval) '(field, direction),
                              <["sort[" +:+ pretty (idx : nat) +:+ "][" +:+ field +:+ "]"
                                := direction]> params)
                           params items))
             params (enumerate entries)
     else inr params);
  params ←
    (if truthy facets then
       entries ← py_iter facets;
       foldM (λ (params : gmap string pyval) '(idx, facet),
                items ← dict_method "items" facet;
                inr (foldl (λ (params : gmap string pyval) '(key, value),
                              <["facets[" +:+ pretty (idx : nat) +:+ "][" +:+ key +:+ "]"
                                := value]> params)
                           params items))
             params (enumerate entries)
     else inr params);
  let params := if truthy query_name then <["query_name" := query_name]> params else params in
  inr params.

(** The parameters of [suggest]. *)
Definition suggest_params (session_id : string) (query : string) (indices : pyval)
  : gmap string pyval :=
  let params : gmap string pyval :=
    <["session_id" := PStr session_id]> (<["query" := PStr query]> ∅) in
  if truthy indices then <["indices[]" := indices]> params else params.

(** The parameters of [similar_products]. *)
Definition similar_products_params (session_id : string) (product_id : string)
    (rpp : Z) (exclude_self : bool) (filters : pyval) : exn + gmap string pyval :=
  let params : gmap string pyval :=
    <["session_id" := PStr session_id]>
      (<["exclude_self" := PBool exclude_self]>
         (<["rpp" := PInt rpp]> (<["dfid" := PStr product_id]> ∅))) in
  if truthy filters then
    items ← dict_method "items" filters;
    foldM (λ (params : gmap string pyval) '(field, conditions),
             match conditions with
             | PDict ops =>
                 inr (foldl (λ (params : gmap string pyval) '(op, value),
                               <["filter[" +:+ field +:+ "][" +:+ op +:+ "]" := value]> params)
                            params ops)
             | _ => inr (<["filter[" +:+ field +:+ "][]" := conditions]> params)
             end) params items
  else inr params.

Section Calls.
Variable E : env.

(** [str(uuid4())] *)
Definition uuid4 : M world string :=
  λ w, ({| uuid_draws := S (uuid_draws w); sent := sent w |},
        inr (uuid4_str E (uuid_draws w))).

(** [requests.get(url, headers=..., params=...)] *)
Definition requests_get (endpoint : string) (hdrs : list (string * string))
    (params : gmap string pyval) : M world response :=
  λ w, let rq := {| req_method := GET; req_url := endpoint; req_headers := hdrs;
                    req_params := params; req_json := None; req_timeout := None |} in
       ({| uuid_draws := uuid_draws w; sent := sent w ++ [rq] |},
        receive rq (remote E (sent w) rq)).

Definition search (self : DoofinderSearch) (query : string) (page rpp : Z)
    (indices filters sort facets query_name : pyval) : M world pyval :=
  session_id ← uuid4;
  params ← lift (search_params session_id query page rpp
                   indices filters sort facets query_name);
  response ← requests_get (base_url self +:+ "/_search") (headers self) params;
  lift (raise_for_status response);;
  lift (response_json response).

Definition suggest (self : DoofinderSearch) (query : string) (indices : pyval)
  : M world pyval :=
  session_id ← uuid4;
  let params := suggest_params session_id query indices in
  response ← requests_get (base_url self +:+ "/_suggest") (headers self) params;
  lift (raise_for_status response);;
  lift (response_json response).

Definition similar_products (self : DoofinderSearch) (product_id : string) (rpp : Z)
    (exclude_self : bool) (filters : pyval) : M world pyval :=
  session_id ← uuid4;
  params ← lift (similar_products_params session_id product_id rpp exclude_self filters);
  response ← requests_get (base_url self +:+ "/_visually_similar") (headers self) params;
  lift (raise_for_status response);;
  lift (response_json response).

(** One call of the client's interface. *)
Inductive api_call :=
| CallSearch (query : string) (page rpp : Z)
    (indices filters sort facets query_name : pyval)
| CallSuggest (query : string) (indices : pyval)
| CallSimilar (product_id : string) (rpp : Z) (exclude_self : bool) (filters : pyval).

Definition perform (self : DoofinderSearch) (c : api_call) : M world pyval :=
  match c with
  | CallSearch q p r i f s fa qn => search self q p r i f s fa qn
  | CallSuggest q i => suggest self q i
  | CallSimilar d r x f => similar_products self d r x f
  end.

(** A caller that makes the calls one after the other, whatever each returns
    or raises. *)
Definition perform_all (self : DoofinderSearch) (cs : list api_call) (w : world) : world :=
  foldl (λ w c, (perform self c w).1) w cs.

End Calls.

(** The session identifier a request carries. *)
Definition session_of (rq : http_request) : option pyval := req_params rq !! "session_id".

(** [s.startswith(p)] *)
Fixpoint startswith (s p : string) {struct p} : bool :=
  match p with
  | EmptyString => true
  | String a p' =>
      match s with
      | EmptyString => false
      | String b s' => Ascii.eqb a b && startswith s' p'
      end
  end.

(** Parameter names of the filter, sort and facet families. *)
Definition is_filter_name (k : string) : bool := startswith k "filter[".
Definition is_sort_name (k : string) : bool := startswith k "sort[".
Definition is_facet_name (k : string) : bool := startswith k "facets[".

(** The filter, sort and facet parameters of a request. *)
Definition filter_params (params : gmap string pyval) : gmap string pyval :=
  filter (λ kv, is_filter_name kv.1 = true) params.
Definition sort_params (params : gmap string pyval) : gmap string pyval :=
  filter (λ kv, is_sort_name kv.1 = true) params.
Definition facet_params (params : gmap string pyval) : gmap string pyval :=
  filter (λ kv, is_facet_name kv.1 = true) params.

(** The flattened encoding as the specification words it: a structured
    filter gives one [filter[field][operator]=value] per operator, a scalar
    filter gives [filter[field][]=value]; the sort entry at position [i]
    gives [sort[i][field]=direction], and the facet at position [i] gives
    [facets[i][key]=value] for each of its keys. *)
Definition filter_name (field op : string) : string :=
  "filter[" +:+ field +:+ "][" +:+ op +:+ "]".
Definition scalar_filter_name (field : string) : string :=
  "filter[" +:+ field +:+ "][]".
Definition sort_name (i : nat) (field : string) : string :=
  "sort[" +:+ pretty i +:+ "][" +:+ field +:+ "]".
Definition facet_name (i : nat) (key : string) : string :=
  "facets[" +:+ pretty i +:+ "][" +:+ key +:+ "]".

Definition rename (name : string → string) (d : list (string * pyval))
  : list (string * pyval) :=
  (λ kv, (name kv.1, kv.2)) <$> d.

Definition flatten_filter (field : string) (conditions : pyval) : list (string * pyval) :=
  match conditions with
  | PDict ops => rename (filter_name field) ops
  | _ => [(scalar_filter_name field, conditions)]
  end.

Fixpoint flatten_filters (fs : list (string * pyval)) : list (string * pyval) :=
  match fs with
  | [] => []
  | (field, conditions) :: fs' => flatten_filter field conditions ++ flatten_filters fs'
  end.



(** Assignments [params[k] = v] made one after the other. *)
Definition assign (params : gmap string pyval) (kv : string * pyval)
  : gmap string pyval :=
  <[kv.1 := kv.2]> params.
Definition apply_all (l : list (string * pyval)) (params : gmap string pyval)
  : gmap string pyval :=
  foldl assign params l.

(** The parameters of [search] before its optional blocks. *)
Definition search_base (session_id : string) (query : string) (page rpp : Z)
    (indices : pyval) : gmap string pyval :=
  let params : gmap string pyval :=
    <["session_id" := PStr session_id]>
      (<["rpp" := PInt rpp]> (<["page" := PInt page]> (<["query" := PStr query]> ∅))) in
  if truthy indices then <["indices[]" := indices]> params else params.

Definition similar_base (session_id : string) (product_id : string) (rpp : Z)
    (exclude_self : bool) : gmap string pyval :=
  <["session_id" := PStr session_id]>
    (<["exclude_self" := PBool exclude_self]>
       (<["rpp" := PInt rpp]> (<["dfid" := PStr product_id]> ∅))).



(** The three optional blocks of [search], each as a function of the
    parameters built so far; [similar_products] has the first one only. *)
Definition filter_stage (filters : pyval) (params : gmap string pyval)
  : exn + gmap string pyval :=
  if truthy filters then
    items ← dict_method "items" filters;
    foldM (λ (params : gmap string pyval) '(field, conditions),
             match conditions with
             | PDict ops =>
                 inr (foldl (λ (params : gmap string pyval) '(op, value),
                               <["filter[" +:+ field +:+ "][" +:+ op +:+ "]" := value]> params)
                            params ops)
             | _ => inr (<["filter[" +:+ field +:+ "][]" := conditions]> params)
             end) params items
  else inr params.

Definition indexed_loop (name : nat → string → string)
    (params : gmap string pyval) (entries : list (nat * pyval))
  : exn + gmap string pyval :=
  foldM (λ (params : gmap string pyval) '(idx, entry),
           items ← dict_method "items" entry;
           inr (foldl (λ (params : gmap string pyval) '(key, value),
                         <[name idx key := value]> params)
                      params items))
        params entries.

Definition indexed_stage (name : nat → string → string) (entries : pyval)
    (params : gmap string pyval) : exn + gmap string pyval :=
  if truthy entries then
    entries ← py_iter entries;
    indexed_loop name params (enumerate entries)
  else inr params.

(** Sample calls. *)
Definition env_counting : env :=
  {| uuid4_str := λ k, "00000000-0000-4000-8000-" +:+ pretty k;
     remote := λ _ _, Responds 200 "OK" (Some (PList [])) |}.

Definition sample_client : DoofinderSearch := new_client "abc123" "secret" "eu1".

Definition sample_filters : pyval :=
  PDict [("price", PDict [("gte", PInt 100); ("lt", PInt 200)]);
         ("brand", PStr "nike")].

Definition clashing_filters : pyval :=
  PDict [("a", PDict [("b][", PInt 1)]); ("a][b", PInt 2)].

Definition sample_calls : list api_call :=
  [CallSuggest "sho" PNone;
   CallSearch "shoes" 1 20 PNone sample_filters PNone PNone PNone;
   CallSimilar "sku-1" 10 true PNone].


End Search.

(** ** Further cases of the ingestion tool *)
Module IngestionCases.
Import Py Ingestion.

(** The client [main] creates from its arguments. *)
Definition client_of (a : args) : DoofinderIngestion :=
  new_client (arg_hashid a) (arg_token a) (arg_zone a) (arg_batch_size a).

(** What [raise_for_status] makes of the answer to a request sent after
    [log]: the checks of [create_temporary_index] and [replace_index]. *)
Definition checked (E : env) (log : list http_request) (rq : http_request)
  : exn + unit :=
  response ← receive rq (remote E log rq);
  raise_for_status response.

(** An answer that makes the call raise: no response at all, or a 4xx or 5xx
    status. *)
Definition refused (o : http_outcome) : Prop :=
  match o with
  | TransportFailure _ => True
  | Responds status _ _ => 400 ≤ status < 600
  end.

(** A catalog record [transform_product] accepts: a dict with a [title]. *)
Definition titled_record (p : pyval) : Prop :=
  ∃ d t, p = PDict d ∧ dict_lookup "title" d = Some t.

(** The result [ingest_batch] returns for a batch, from what its [try]
    block evaluates to. *)
Definition result_of (products : list pyval) (r : exn + pyval) : pyval :=
  match r with
  | inr data => PDict [("success", PBool true); ("data", data)]
  | inl e => PDict [("success", PBool false);
                    ("error", PStr (str_exn e));
                    ("products", PList products)]
  end.

(** The results of the uploads of [batches], sent one after the other
    after [log]. *)
Fixpoint upload_results (E : env) (self : DoofinderIngestion) (index_name : string)
    (log : list http_request) (batches : list (list pyval)) : list pyval :=
  match batches with
  | [] => []
  | b :: batches' =>
      result_of b (attempt E log (upload_request self index_name b))
      :: upload_results E self index_name
           (log ++ [upload_request self index_name b]) batches'
  end.

(** A batch result the aggregation loop can count. *)
Definition countable (result : pyval) : bool :=
  match tally (0, 0, []) result with
  | inr _ => true
  | inl _ => false
  end.

(** The same surroundings with another completion order. *)
Definition with_completion (E : env) (picks : list nat) : env :=
  {| time_time := time_time E;
     str_float := str_float E;
     load_json := load_json E;
     remote := remote E;
     completion := picks |}.

(** The address an upload to the production index would have. *)
Definition production_items_endpoint (a : args) : string :=
  base_url (client_of a) +:+ "/items/" +:+ arg_index a.

(** Sample surroundings: the service refuses to create the index; uploads
    find no connection; the replace request is refused; a later upload is
    answered with a number. *)
Definition env_refused : env :=
  {| time_time := λ k, S754_finite false 1 (Z.of_nat k);
     str_float := λ _, "1700000000.25";
     load_json := λ _, inr (PList [titled "a"]);
     remote := λ _ _, Responds 401 "Unauthorized" None;
     completion := [] |}.

Definition env_down : env :=
  {| time_time := λ k, S754_finite false 1 (Z.of_nat k);
     str_float := λ _, "1700000000.25";
     load_json := λ _, inr (PList [titled "a"; titled "b"; titled "c"]);
     remote := λ _ rq,
       match req_json rq with
       | Some _ => TransportFailure "Connection refused"
       | None => Responds 200 "OK" (Some (PDict []))
       end;
     completion := [1; 0]%nat |}.

Definition env_replace_refused : env :=
  {| time_time := λ k, S754_finite false 1 (Z.of_nat k);
     str_float := λ _, "1700000000.25";
     load_json := λ _, inr (PList [titled "a"; titled "b"; titled "c"]);
     remote := λ log rq,
       match req_json rq with
       | Some v => Responds 200 "OK" (Some v)
       | None =>
           if (length log =? 0)%nat then Responds 200 "OK" (Some (PDict []))
           else Responds 500 "Internal Server Error" None
       end;
     completion := [1]%nat |}.

Definition env_flaky : env :=
  {| time_time := λ k, S754_finite false 1 (Z.of_nat k);
     str_float := λ _, "1700000000.25";
     load_json := λ _, inr (PList [titled "a"; titled "b"; titled "c"]);
     remote := λ log rq,
       match req_json rq with
       | Some v =>
           if (length log =? 1)%nat then Responds 200 "OK" (Some v)
           else Responds 200 "OK" (Some (PInt 1))
       | None => Responds 200 "OK" (Some (PDict []))
       end;
     completion := [0]%nat |}.

Definition workers_args (workers : Z) : args :=
  {| arg_hashid := "abc123";
     arg_token := "secret";
     arg_file := "products.json";
     arg_workers := workers;
     arg_batch_size := 2;
     arg_zone := "eu1";
     arg_index := "product" |}.

End IngestionCases.

(** ** Further cases of the search client *)
Module SearchCases.
Import Py Search.

(** The path a call requests. *)
Definition endpoint (c : api_call) : string :=
  match c with
  | CallSearch _ _ _ _ _ _ _ _ => "/_search"
  | CallSuggest _ _ => "/_suggest"
  | CallSimilar _ _ _ _ => "/_visually_similar"
  end.

(** Values the filter block accepts: nothing, or a dict. *)
Definition filters_ok (v : pyval) : Prop :=
  truthy v = false ∨ ∃ fs, v = PDict fs.

(** Values the sort and facet blocks accept: nothing, or a list of dicts. *)
Definition entries_ok (v : pyval) : Prop :=
  truthy v = false ∨ ∃ ds, v = PList (PDict <$> ds).

Definition is_dict (v : pyval) : Prop := ∃ d, v = PDict d.

(** The request of a call, and what the call returns or raises once the
    request is sent after [log]. *)
Definition get_request (self : DoofinderSearch) (path : string)
    (params : gmap string pyval) : http_request :=
  {| req_method := GET;
     req_url := base_url self +:+ path;
     req_headers := headers self;
     req_params := params;
     req_json := None;
     req_timeout := None |}.

Definition answer (E : env) (log : list http_request) (rq : http_request)
  : exn + pyval :=
  response ← receive rq (remote E log rq);
  raise_for_status response;;
  response_json response.

(** The parameters a call builds with the identifier [sid]. *)
Definition params_of (sid : string) (c : api_call) : exn + gmap string pyval :=
  match c with
  | CallSearch q p r i f s fa qn => search_params sid q p r i f s fa qn
  | CallSuggest q i => inr (suggest_params sid q i)
  | CallSimilar d r x f => similar_products_params sid d r x f
  end.

(** Sample parameters: filters on fields named like core parameters, and
    two filters that flatten to one name. *)
Definition sample_shadowed : gmap string pyval :=
  <["filter[page][]" := PInt 7]>
    (<["filter[query][]" := PStr "boots"]>
       (search_base "6f1c7a52" "shoes" 2 10 (PList [PStr "product"]))).

Definition sample_similar : gmap string pyval :=
  <["filter[dfid][]" := PStr "sku-2"]> (similar_base "0c9e" "sku-1" 10 true).

Definition sample_clashing : gmap string pyval :=
  <["filter[a][b][]" := PInt 2]>
    (<["filter[a][b][]" := PInt 1]> (search_base "6f1c7a52" "shoes" 1 20 PNone)).

End SearchCases.

(** ** The command line of the search tool, [search.py] *)
Module SearchCli.
Import Py Search.

(** Beside the surroundings of the client: [json.loads], and [str] on the
    values whose text Python builds by [repr] (floats, lists, dicts). *)
Record env := {
  client_env : Search.env;
  json_loads : string → exn + pyval;
  str_other : pyval → string;
}.

(** The state of the process: the client's, and the lines printed so far. *)
Record world := {
  net : Search.world;
  stdout : list string;
}.

Definition initial_world : world := {| net := Search.initial_world; stdout := [] |}.

Record args := {
  arg_hashid : string;
  arg_token : string;
  arg_zone : string;
  arg_query : string;
  arg_page : Z;
  arg_rpp : Z;
  arg_index : option string;
  arg_filter : option string;
  arg_sort : option string;
  arg_suggest : bool;
}.

(** The newline character. *)
Definition nl : string := String "010"%char EmptyString.

(** [str(v)], as an f-string field formats [v]. *)
Definition py_str (E : env) (v : pyval) : string :=
  match v with
  | PStr s => s
  | PInt z => pretty z
  | PNone => "None"
  | PBool true => "True"
  | PBool false => "False"
  | _ => str_other E v
  end.

(** [p in s] for strings: [p] occurs in [s]. *)
Fixpoint occurs (p s : string) : bool :=
  startswith s p
  || match s with
     | EmptyString => false
     | String _ s' => occurs p s'
     end.

(** [key in v] *)
Definition py_contains (key : string) (v : pyval) : exn + bool :=
  match v with
  | PDict d => inr (bool_decide (is_Some (dict_lookup key d)))
  | PList l => inr (existsb (λ x, match x with
                                  | PStr s => bool_decide (s = key)
                                  | _ => false
                                  end) l)
  | PStr s => inr (occurs key s)
  | _ => inl (TypeError ("argument of type '" +:+ type_name v +:+ "' is not iterable"))
  end.

(** The first [n] characters of a string. *)
Fixpoint string_take (n : nat) (s : string) : string :=
  match n, s with
  | S n', String c s' => String c (string_take n' s')
  | _, _ => EmptyString
  end.

(** [v[:n]]; slicing a dict raises (a [TypeError] before Python 3.12, a
    [KeyError] from 3.12 on). *)
Definition py_slice_to (n : nat) (v : pyval) : exn + pyval :=
  match v with
  | PStr s => inr (PStr (string_take n s))
  | PList l => inr (PList (take n l))
  | PDict _ => inl (TypeError "unhashable type: 'slice'")
  | _ => inl (TypeError ("'" +:+ type_name v +:+ "' object is not subscriptable"))
  end.

(** [args.x] tested as a condition: [None] and the empty string are false. *)
Definition given (o : option string) : option string :=
  match o with
  | Some (String c s) => Some (String c s)
  | _ => None
  end.

(** The state once [lines] are printed. *)
Definition printing (lines : list string) (w : world) : world :=
  {| net := net w; stdout := stdout w ++ lines |}.

(** [print(line)] *)
Definition print (line : string) : M world unit :=
  λ w, (printing [line] w, inr tt).

(** A call of the client, in the state of the process. *)
Definition on_net {A} (m : M Search.world A) : M world A :=
  λ w, let '(n, r) := m (net w) in ({| net := n; stdout := stdout w |}, r).

(** [for x in l: body x] *)
Fixpoint for_each {A} (body : A → M world unit) (l : list A) : M world unit :=
  match l with
  | [] => mret tt
  | x :: l' => body x;; for_each body l'
  end.

(** A line of the report, as opposed to the line an exception ends the run
    with. *)
Definition report_line (line : string) : Prop := startswith line "Error: " = false.

(** A computation that only prints lines of the report: it keeps the earlier
    lines and the state of the client. *)
Definition only_prints {A} (m : M world A) : Prop :=
  ∀ w, ∃ lines, (m w).1 = printing lines w ∧ Forall report_line lines.

(** [enumerate(l, start)] *)
Definition enumerate_from {A} (start : nat) (l : list A) : list (nat * A) :=
  zip (seq start (length l)) l.

Section Cli.
Variable E : env.

(** The body of the loop over the result items. *)
Definition print_item (idx : nat) (item : pyval) : M world unit :=
  title ← lift (py_subscript item "title");
  print (nl +:+ pretty idx +:+ ". " +:+ py_str E title);;
  has_description ← lift (py_contains "description" item);
  (if has_description : bool then
     description ← lift (py_subscript item "description");
     head ← lift (py_slice_to 100 description);
     print ("   Description: " +:+ py_str E head +:+ "...")
   else mret tt);;
  has_price ← lift (py_contains "price" item);
  (if has_price : bool then
     price ← lift (py_subscript item "price");
     print ("   Price: " +:+ py_str E price)
   else mret tt);;
  id ← lift (py_subscript item "id");
  print ("   ID: " +:+ py_str E id).

(** The body of the loop over the facets. *)
Definition print_facet (facet : pyval) : M world unit :=
  has_terms ← lift (py_contains "terms" facet);
  if has_terms : bool then
    key ← lift (py_subscript facet "key");
    print (nl +:+ py_str E key +:+ ":");;
    terms ← lift (py_subscript facet "terms");
    items ← lift (py_subscript terms "items");
    items ← lift (py_iter items);
    for_each (λ term,
                name ← lift (py_subscript term "name");
                count ← lift (py_subscript term "count");
                print ("  - " +:+ py_str E name +:+ " (" +:+ py_str E count +:+ ")"))
             items
  else mret tt.

Definition print_results (results : pyval) (show_facets : bool) : M world unit :=
  total ← lift (py_subscript results "total");
  print (nl +:+ "Found " +:+ py_str E total +:+ " results");;
  print (nl +:+ "Items:");;
  items ← lift (py_subscript results "results");
  items ← lift (py_iter items);
  for_each (λ '(idx, item), print_item idx item) (enumerate_from 1 items);;
  (if show_facets then
     has_facets ← lift (py_contains "facets" results);
     if has_facets : bool then
       facets ← lift (py_subscript results "facets");
       if truthy facets then
         print (nl +:+ "Facets:");;
         facets ← lift (py_subscript results "facets");
         facets ← lift (py_iter facets);
         for_each print_facet facets
       else mret tt
     else mret tt
   else mret tt).

(** [[args.index] if args.index else None] *)
Definition indices_of (a : args) : pyval :=
  match given (arg_index a) with
  | Some index => PList [PStr index]
  | None => PNone
  end.

(** [json.loads(s) if s else None] *)
Definition loads_if_given (o : option string) : exn + pyval :=
  match given o with
  | Some s => json_loads E s
  | None => inr PNone
  end.

(** The [try] block of [main]. *)
Definition main_try (a : args) : M world unit :=
  let client := new_client (arg_hashid a) (arg_token a) (arg_zone a) in
  if arg_suggest a then
    suggestions ← on_net (suggest (client_env E) client (arg_query a) (indices_of a));
    print (nl +:+ "Suggestions:");;
    suggestions ← lift (py_iter suggestions);
    for_each (λ suggestion, print ("- " +:+ py_str E suggestion)) suggestions
  else
    filters ← lift (loads_if_given (arg_filter a));
    sort ← lift (loads_if_given (arg_sort a));
    results ← on_net (search (client_env E) client (arg_query a) (arg_page a) (arg_rpp a)
                        (indices_of a) filters sort PNone PNone);
    print_results results true.

(** [main]: the exit status of the process. *)
Definition main (a : args) : M world Z :=
  try_except (main_try a;; mret 0)
             (λ e, print ("Error: " +:+ str_exn e);; mret 1).

End Cli.

(** An item the result loop prints without raising: a dict with a [title]
    and an [id] whose [description], if any, is a string or a list. *)
Definition printable_item (item : pyval) : Prop :=
  ∃ d, item = PDict d
       ∧ is_Some (dict_lookup "title" d) ∧ is_Some (dict_lookup "id" d)
       ∧ match dict_lookup "description" d with
         | Some (PStr _) | Some (PList _) | None => True
         | Some _ => False
         end.

(** The number of lines the result loop prints for an item. *)
Definition item_lines (item : pyval) : nat :=
  match item with
  | PDict d =>
      2 + (match dict_lookup "description" d with Some _ => 1 | None => 0 end)
        + (match dict_lookup "price" d with Some _ => 1 | None => 0 end)
  | _ => 0
  end.

(** Results with no facet section to print. *)
Definition no_facets (results : pyval) : Prop :=
  match results with
  | PDict d =>
      match dict_lookup "facets" d with
      | Some facets => truthy facets = false
      | None => True
      end
  | _ => True
  end.

(** Sample command lines and surroundings. *)
Definition sample_args : args :=
  {| arg_hashid := "abc123";
     arg_token := "secret";
     arg_zone := "eu1";
     arg_query := "shoes";
     arg_page := 1;
     arg_rpp := 20;
     arg_index := Some "product";
     arg_filter := Some "{bad";
     arg_sort := None;
     arg_suggest := false |}.

Definition suggest_args : args :=
  {| arg_hashid := "abc123";
     arg_token := "secret";
     arg_zone := "eu1";
     arg_query := "sho";
     arg_page := 1;
     arg_rpp := 20;
     arg_index := Some "product";
     arg_filter := Some "{bad";
     arg_sort := Some "[";
     arg_suggest := true |}.

Definition sample_suggest_twin : args :=
  {| arg_hashid := "abc123";
     arg_token := "secret";
     arg_zone := "eu1";
     arg_query := "sho";
     arg_page := 3;
     arg_rpp := 5;
     arg_index := Some "product";
     arg_filter := None;
     arg_sort := None;
     arg_suggest := true |}.

Definition plain_args : args :=
  {| arg_hashid := "abc123";
     arg_token := "secret";
     arg_zone := "eu1";
     arg_query := "shoes";
     arg_page := 1;
     arg_rpp := 20;
     arg_index := Some "";
     arg_filter := Some "";
     arg_sort := None;
     arg_suggest := false |}.

Definition sample_results : pyval :=
  PDict [("total", PInt 2);
         ("results",
          PList [PDict [("title", PStr "Runner"); ("description", PStr "A shoe");
                        ("price", PInt 50); ("id", PStr "sku-1")];
                 PDict [("title", PStr "Walker"); ("id", PStr "sku-2")]])].

Definition env_shop (answer : pyval) : env :=
  {| client_env :=
       {| uuid4_str := λ k, "00000000-0000-4000-8000-" +:+ pretty k;
          Search.remote := λ _ _, Responds 200 "OK" (Some answer) |};
     json_loads := λ s, inl (JSONDecodeError "Expecting property name");
     str_other := λ _, "?" |}.

End SearchCli.

(** ** Facts about the ingestion tool *)
Module IngestionFacts.
Import Py Ingestion.

Section Batching.
Context {A : Type}.
Variable items : list A.
Variable size : Z.
Hypothesis size_pos : 0 < size.

Local Abbreviation n := (Z.of_nat (length items)).

Local Abbreviation batches_from := (Ingestion.batches_from items size).

Lemma py_slice_inside (i : Z) :
  0 ≤ i → i < n →
  py_slice items i (i + size)
  = take (Z.to_nat (Z.min (i + size) n - i)) (drop (Z.to_nat i) items).
Proof using size_pos.
  intros Hi Hn. unfold py_slice, slice_bound.
  destruct (Z.ltb_spec i 0); [lia|].
  destruct (Z.ltb_spec (i + size) 0); [lia|].
  by rewrite (Z.min_l i n) by lia.
Qed.

Lemma batches_from_concat (fuel : nat) (i : Z) :
  0 ≤ i → n - i ≤ Z.of_nat fuel →
  concat (batches_from fuel i) = drop (Z.to_nat i) items.
Proof using size_pos.
  revert i. induction fuel as [|fuel IH]; intros i Hi Hfuel.
  - simpl. rewrite drop_ge; [done|].  lia.
  - unfold Ingestion.batches_from. simpl. destruct (Z.ltb_spec i n) as [Hlt|Hge].
    + simpl. fold (batches_from fuel (i + size)).
      rewrite IH by lia. rewrite py_slice_inside by lia.
      destruct (Z.le_gt_cases (i + size) n) as [Hfull|Hshort].
      * rewrite Z.min_l by lia.
        replace (Z.to_nat (i + size)) with (Z.to_nat i + Z.to_nat (i + size - i))%nat by lia.
        rewrite <- drop_drop. apply take_drop.
      * rewrite Z.min_r by lia.
        rewrite (drop_ge items (Z.to_nat (i + size))) by lia.
        rewrite app_nil_r. apply take_ge. rewrite length_drop.  lia.
    + simpl. rewrite drop_ge; [done|].  lia.
Qed.

Lemma batches_from_length (fuel : nat) (i : Z) :
  0 ≤ i → n - i ≤ Z.of_nat fuel →
  Z.of_nat (length (batches_from fuel i)) = Z.max 0 ((n - i + size - 1) / size).
Proof using size_pos.
  revert i. induction fuel as [|fuel IH]; intros i Hi Hfuel.
  - simpl. assert ((n - i + size - 1) / size ≤ 0); [|lia].
    apply Z.lt_succ_r, Z.div_lt_upper_bound; lia.
  - unfold Ingestion.batches_from. simpl. destruct (Z.ltb_spec i n) as [Hlt|Hge].
    + simpl. fold (batches_from fuel (i + size)).
      rewrite Nat2Z.inj_succ, IH by lia.
      replace (n - i + size - 1) with ((n - (i + size) + size - 1) + 1 * size) by lia.
      rewrite Z.div_add by lia.
      assert (0 ≤ (n - (i + size) + size - 1) / size) by (apply Z.div_pos; lia).
      lia.
    + simpl. assert ((n - i + size - 1) / size ≤ 0); [|lia].
      apply Z.lt_succ_r, Z.div_lt_upper_bound; lia.
Qed.

Lemma batches_from_sizes (fuel : nat) (i : Z) :
  0 ≤ i →
  Forall (λ b, 0 < Z.of_nat (length b) ≤ size) (batches_from fuel i).
Proof using size_pos.
  revert i. induction fuel as [|fuel IH]; intros i Hi; [constructor|].
  unfold Ingestion.batches_from. simpl. destruct (Z.ltb_spec i n) as [Hlt|Hge]; [|constructor].
  simpl. constructor; [|apply IH; lia].
  rewrite py_slice_inside by lia. rewrite length_take, length_drop.  lia.
Qed.

Lemma batches_from_full (fuel : nat) (i : Z) (k : nat) (b : list A) :
  0 ≤ i →
  batches_from fuel i !! k = Some b →
  (S k < length (batches_from fuel i))%nat →
  Z.of_nat (length b) = size.
Proof using size_pos.
  revert i k. induction fuel as [|fuel IH]; intros i k Hi; [done|].
  unfold Ingestion.batches_from. simpl. destruct (Z.ltb_spec i n) as [Hlt|Hge]; [|done].
  simpl. fold (batches_from fuel (i + size)). destruct k as [|k]; simpl.
  - intros [= <-] Hmore.
    destruct fuel as [|fuel]; [simpl in Hmore; lia|].
    unfold Ingestion.batches_from in Hmore. simpl in Hmore.
    destruct (Z.ltb_spec (i + size) n); [|simpl in Hmore; lia].
    rewrite py_slice_inside by lia. rewrite length_take, length_drop.  lia.
  - intros Hb Hmore. eapply IH; [|done|]; lia.
Qed.

End Batching.

Ltac run := repeat (unfold mbind, mret, M_bind, M_ret, exn_bind, exn_ret, lift, raise,
                      try_except, read_clock, requests_post; simpl).

Lemma transform_product_run (E : env) (w : world) (product : list (string * pyval)) :
  transform_product E (PDict product) w
  = ({| clock_reads := S (clock_reads w); sent := sent w |},
     title ← dict_subscript product "title";
     inr (PDict [("id", dict_get product "platform_id"
                          (PStr (str_float E (time_time E (clock_reads w)))));
                 ("title", title);
                 ("description", dict_get product "description" (PStr ""));
                 ("image_url", dict_get product "image_url" (PStr ""));
                 ("link", dict_get product "url" (PStr ""));
                 ("price", dict_get product "price" (PFloat (S754_zero false)));
                 ("categories", dict_get product "category" (PList []));
                 ("availability", PStr "in stock")])).
Proof. unfold transform_product. run. by destruct (dict_subscript product "title"). Qed.

Lemma keeps_or_defaults_get product item src dst dflt :
  dict_lookup dst item = Some (dict_get product src dflt) →
  keeps_or_defaults product item src dst dflt.
Proof. unfold keeps_or_defaults, dict_get. by destruct (dict_lookup src product). Qed.

(** C3.  For a record with a [title], [transform_product] returns an item
    with the output fields: [id] is [platform_id], or the non-empty string of
    the clock reading when there is none; [description], [image_url] and
    [link] default to the empty string, [price] to [0.0], [categories] to the
    empty list; [availability] is ["in stock"]. *)
Theorem transform_product_defaults (E : env) (w : world)
    (product : list (string * pyval)) (title : pyval) :
  (∀ f, str_float E f ≠ "") →
  dict_lookup "title" product = Some title →
  ∃ item,
    (transform_product E (PDict product) w).2 = inr (PDict item)
    ∧ item.*1 = ["id"; "title"; "description"; "image_url"; "link"; "price";
                 "categories"; "availability"]
    ∧ dict_lookup "title" item = Some title
    ∧ match dict_lookup "platform_id" product with
      | Some v => dict_lookup "id" item = Some v
      | None => ∃ s, dict_lookup "id" item = Some (PStr s) ∧ s ≠ ""
                     ∧ s = str_float E (time_time E (clock_reads w))
      end
    ∧ keeps_or_defaults product item "description" "description" (PStr "")
    ∧ keeps_or_defaults product item "image_url" "image_url" (PStr "")
    ∧ keeps_or_defaults product item "url" "link" (PStr "")
    ∧ keeps_or_defaults product item "price" "price" (PFloat (S754_zero false))
    ∧ keeps_or_defaults product item "category" "categories" (PList [])
    ∧ dict_lookup "availability" item = Some (PStr "in stock").
Proof.
  intros Hstr Htitle. rewrite transform_product_run.
  unfold dict_subscript. rewrite Htitle. simpl.
  eexists. split; [reflexivity|].
  repeat split; try (apply keeps_or_defaults_get; reflexivity).
  unfold dict_get. simpl. destruct (dict_lookup "platform_id" product); [done|].
  eexists. repeat split. apply Hstr.
Qed.

Lemma transform_product_defaults_witness :
  ∃ item,
    (transform_product env_echo (PDict [("title", PStr "shoe")]) initial_world).2
    = inr (PDict item)
    ∧ dict_lookup "id" item = Some (PStr "1700000000.25")
    ∧ dict_lookup "price" item = Some (PFloat (S754_zero false)).
Proof.
  destruct (transform_product_defaults env_echo initial_world
              [("title", PStr "shoe")] (PStr "shoe")) as (item & Hrun & _ & _ & Hid & _ & _ & _ & Hprice & _).
  - intros f. simpl. discriminate.
  - reflexivity.
  - exists item. split; [exact Hrun|].
    simpl in Hid. destruct Hid as (s & Hid & _ & ->). split; [exact Hid|exact Hprice].
Defined.

Lemma make_batches_run {A} (items : list A) (size : Z) :
  0 < size →
  py_range 0 (Z.of_nat (length items)) size
  = inr (range_up (length items) 0 (Z.of_nat (length items)) size).
Proof.
  intros Hsize. unfold py_range.
  destruct (Z.eqb_spec size 0) as [|_]; [lia|].
  destruct (Z.ltb_spec 0 size) as [_|]; [|lia].
  by rewrite Z.sub_0_r, Nat2Z.id.
Qed.

Lemma make_batches_concat (items : list pyval) (size : Z) (batches : list (list pyval)) :
  0 < size → make_batches items size = inr batches → concat batches = items.
Proof.
  intros Hsize. unfold make_batches. rewrite make_batches_run by done.
  intros [= <-]. fold (batches_from items size (length items) 0).
  by rewrite batches_from_concat by lia.
Qed.

(** C5.  For a positive batch size the batches concatenate to the
    transformed list, none is longer than the batch size, all but the last
    have exactly that size, and there are [ceil(N / size)] of them. *)
Theorem make_batches_partition (items : list pyval) (size : Z) :
  0 < size →
  ∃ batches,
    make_batches items size = inr batches
    ∧ concat batches = items
    ∧ Forall (λ b, Z.of_nat (length b) ≤ size) batches
    ∧ (∀ k b, batches !! k = Some b → (S k < length batches)%nat →
              Z.of_nat (length b) = size)
    ∧ size * (Z.of_nat (length batches) - 1) < Z.of_nat (length items)
                                              ≤ size * Z.of_nat (length batches)
    ∧ Z.of_nat (length batches) = (Z.of_nat (length items) + size - 1) / size.
Proof.
  intros Hsize. unfold make_batches. rewrite make_batches_run by done.
  set (fuel := length items).
  assert (Hlen : Z.of_nat (length (batches_from items size fuel 0))
                 = (Z.of_nat (length items) + size - 1) / size).
  { rewrite batches_from_length by lia. rewrite Z.sub_0_r.
    apply Z.max_r, Z.div_pos; lia. }
  exists (batches_from items size fuel 0). split; [reflexivity|].
  split; [by rewrite batches_from_concat by lia|].
  split.
  { eapply Forall_impl; [apply batches_from_sizes; lia|]. simpl. lia. }
  split; [intros k b; by apply batches_from_full|].
  split; [|exact Hlen].
  rewrite Hlen.
  pose proof (Z.div_mod (Z.of_nat (length items) + size - 1) size ltac:(lia)).
  pose proof (Z.mod_pos_bound (Z.of_nat (length items) + size - 1) size Hsize).
  lia.
Qed.

Lemma make_batches_partition_witness :
  ∃ batches,
    make_batches [PInt 1; PInt 2; PInt 3; PInt 4; PInt 5] 2 = inr batches
    ∧ concat batches = [PInt 1; PInt 2; PInt 3; PInt 4; PInt 5]
    ∧ length batches = 3%nat.
Proof.
  destruct (make_batches_partition [PInt 1; PInt 2; PInt 3; PInt 4; PInt 5] 2)
    as (batches & Hrun & Hcat & _ & _ & _ & Hlen); [lia|].
  exists batches. split; [exact Hrun|]. split; [exact Hcat|].
  apply Nat2Z.inj. rewrite Hlen. reflexivity.
Defined.

Lemma mapM_cons {W A B} (f : A → M W B) (x : A) (l : list A) (w : W) :
  mapM f (x :: l) w
  = match f x w with
    | (w1, inr y) =>
        match mapM f l w1 with
        | (w2, inr ys) => (w2, inr (y :: ys))
        | (w2, inl e) => (w2, inl e)
        end
    | (w1, inl e) => (w1, inl e)
    end.
Proof. reflexivity. Qed.

Section Stages.
Variable E : env.

Lemma ingest_batch_run self index_name products w :
  ingest_batch E self index_name products w
  = ({| clock_reads := clock_reads w;
        sent := sent w ++ [upload_request self index_name products] |},
     inr match attempt E (sent w) (upload_request self index_name products) with
         | inr data => PDict [("success", PBool true); ("data", data)]
         | inl e => PDict [("success", PBool false);
                           ("error", PStr (str_exn e));
                           ("products", PList products)]
         end).
Proof.
  unfold ingest_batch, attempt. run.
  fold (upload_request self index_name products).
  destruct (receive _ _) as [e|response]; simpl; [done|].
  destruct (raise_for_status response) as [e|[]]; simpl; [done|].
  by destruct (response_json response).
Qed.

Lemma ingest_batch_result self index_name products w :
  ∃ result, (ingest_batch E self index_name products w).2 = inr result
            ∧ batch_result products result.
Proof.
  rewrite ingest_batch_run. eexists. split; [reflexivity|].
  destruct (attempt _ _ _); constructor.
Qed.

Lemma mapM_ingest_batch self index_name batches w :
  ∃ results,
    mapM (ingest_batch E self index_name) batches w
    = ({| clock_reads := clock_reads w;
          sent := sent w ++ map (upload_request self index_name) batches |},
       inr results)
    ∧ Forall2 batch_result batches results.
Proof.
  revert w. induction batches as [|b batches IH]; intros w.
  - exists []. simpl. rewrite app_nil_r. split; [by destruct w|constructor].
  - rewrite mapM_cons, ingest_batch_run.
    destruct (IH {| clock_reads := clock_reads w;
                    sent := sent w ++ [upload_request self index_name b] |})
      as (results & Hrun & Hres).
    rewrite Hrun. simpl.
    eexists. split.
    + rewrite <- app_assoc. reflexivity.
    + constructor; [|done]. destruct (attempt _ _ _); constructor.
Qed.

Lemma transform_product_sent product w :
  sent (transform_product E product w).1 = sent w.
Proof.
  destruct product; try done.
  rewrite transform_product_run. done.
Qed.

Lemma mapM_transform_product_sent items w :
  sent (mapM (transform_product E) items w).1 = sent w.
Proof.
  revert w. induction items as [|p items IH]; intros w; [done|].
  rewrite mapM_cons.
  pose proof (transform_product_sent p w) as Hp.
  destruct (transform_product E p w) as [w1 [e|item]]; simpl in *; [done|].
  pose proof (IH w1) as Hrest.
  destruct (mapM (transform_product E) items w1) as [w2 [e|rest]]; simpl in *; congruence.
Qed.

Lemma mapM_transform_product_fails items w :
  Exists (λ p, ∃ d, p = PDict d ∧ dict_lookup "title" d = None) items →
  ∃ e, (mapM (transform_product E) items w).2 = inl e.
Proof.
  intros Hbad. revert w. induction Hbad as [p items (d & -> & Hd)|p items _ IH]; intros w.
  - rewrite mapM_cons, transform_product_run.
    unfold dict_subscript. rewrite Hd. simpl. eauto.
  - rewrite mapM_cons.
    destruct (transform_product E p w) as [w1 [e|item]]; simpl; [eauto|].
    destruct (IH w1) as [e He].
    destruct (mapM (transform_product E) items w1) as [w2 [e'|rest]]; simpl in *; [eauto|done].
Qed.

Lemma create_temporary_index_run self name w :
  ∃ r, create_temporary_index E self name w
       = ({| clock_reads := clock_reads w; sent := sent w ++ [create_request self name] |}, r)
       ∧ ∀ t, r = inr t → t = name +:+ "_temp".
Proof.
  unfold create_temporary_index. run. fold (create_request self name).
  destruct (receive _ _) as [e|response]; simpl; [by eexists|].
  destruct (raise_for_status response) as [e|[]]; simpl; eexists; split; try done.
  by intros t [= <-].
Qed.

End Stages.

Lemma complete_perm {A} (n : nat) (picks : list nat) (l : list A) :
  n = length l → complete n picks l ≡ₚ l.
Proof.
  revert picks l. induction n as [|n IH]; intros picks l Hn.
  - by destruct l.
  - simpl. destruct l as [|x l]; [done|].
    set (k := (hd 0%nat picks `mod` length (x :: l))%nat).
    assert (Hk : (k < length (x :: l))%nat) by (apply Nat.mod_upper_bound; done).
    destruct (lookup_lt_is_Some_2 _ _ Hk) as [a Ha]. rewrite Ha.
    etrans; [|symmetry; apply (delete_Permutation (x :: l) k a Ha)].
    constructor. apply IH. rewrite length_delete by eauto. simpl in *. lia.
Qed.

Lemma as_completed_perm {A} (E : env) (l : list A) : as_completed E l ≡ₚ l.
Proof. by apply complete_perm. Qed.

Lemma sumZ_cons (x : Z) (l : list Z) : sumZ (x :: l) = x + sumZ l.
Proof. reflexivity. Qed.

Lemma sumZ_perm (l l' : list Z) : l ≡ₚ l' → sumZ l = sumZ l'.
Proof. induction 1; simpl in *; lia. Qed.

Lemma sumZ_app (l l' : list Z) : sumZ (l ++ l') = sumZ l + sumZ l'.
Proof. induction l; simpl in *; lia. Qed.

Lemma py_len_nonneg v n : py_len v = inr n → 0 ≤ n.
Proof. destruct v; simpl; intros [= <-]; lia. Qed.

Lemma returned_items_nonneg r : 0 ≤ returned_items r.
Proof.
  unfold returned_items, count_of. destruct (succeeded r); [|done].
  destruct (py_subscript r "data") as [|v]; simpl; [done|].
  destruct (py_len v) eqn:Hv; [done|]. by eapply py_len_nonneg.
Qed.

Lemma sum_returned_items_nonneg rs : 0 ≤ sumZ (returned_items <$> rs).
Proof.
  induction rs as [|r rs IH]; [done|]. rewrite fmap_cons, sumZ_cons.
  pose proof (returned_items_nonneg r). lia.
Qed.

(** What one round of the aggregation loop adds to the counters. *)
Lemma tally_step s0 e0 errs0 r s e errs :
  tally (s0, e0, errs0) r = inr (s, e, errs) →
  s = s0 + returned_items r ∧ e = e0 + failed_items r
  ∧ errs = errs0 ++ (if succeeded r then [] else [r]).
Proof.
  unfold tally, returned_items, failed_items, succeeded, count_of.
  destruct (py_subscript r "success") as [|ok]; simpl; [done|].
  destruct (truthy ok).
  - destruct (py_subscript r "data") as [|data]; simpl; [done|].
    destruct (py_len data); simpl; [done|].
    intros [= <- <- <-]. rewrite app_nil_r. repeat split; lia.
  - destruct (py_subscript r "products") as [|products]; simpl; [done|].
    destruct (py_len products); simpl; [done|].
    intros [= <- <- <-]. repeat split; lia.
Qed.

Lemma foldM_cons {A B} (f : A → B → exn + A) (acc : A) (x : B) (l : list B) :
  foldM f acc (x :: l)
  = match f acc x with
    | inr acc' => foldM f acc' l
    | inl e => inl e
    end.
Proof. reflexivity. Qed.

Lemma tally_sums rs s0 e0 errs0 s e errs :
  foldM tally (s0, e0, errs0) rs = inr (s, e, errs) →
  s = s0 + sumZ (returned_items <$> rs)
  ∧ e = e0 + sumZ (failed_items <$> rs)
  ∧ errs = errs0 ++ filter (λ r, succeeded r = false) rs.
Proof.
  revert s0 e0 errs0. induction rs as [|r rs IH]; intros s0 e0 errs0.
  - simpl. intros [= <- <- <-]. rewrite app_nil_r. repeat split; lia.
  - rewrite foldM_cons.
    destruct (tally (s0, e0, errs0) r) as [|[[s1 e1] errs1]] eqn:Hr; [done|].
    intros Hrest. apply tally_step in Hr as (-> & -> & ->).
    apply IH in Hrest as (-> & -> & ->).
    rewrite !fmap_cons, !sumZ_cons. destruct (succeeded r) eqn:Hok.
    + rewrite app_nil_r, filter_cons_False by congruence. repeat split; lia.
    + rewrite filter_cons_True by done. rewrite <- app_assoc. repeat split; lia.
Qed.

Lemma batch_result_failed_items b r :
  batch_result b r → succeeded r = false → failed_items r = Z.of_nat (length b).
Proof. by intros [data|error]. Qed.

Lemma batch_result_returned_items b r :
  batch_result b r → succeeded r = false → returned_items r = 0.
Proof. by intros [data|error]. Qed.

Lemma string_app_self (s t : string) : s = s +:+ t → t = "".
Proof.
  induction s as [|c s IH]; cbv [String.append]; [done|].
  intros [= H]. by apply IH.
Qed.

Lemma create_is_not_replace (a : args) self :
  self = new_client (arg_hashid a) (arg_token a) (arg_zone a) (arg_batch_size a) →
  req_url (create_request self (arg_index a)) ≠ replace_endpoint a.
Proof.
  intros ->. unfold replace_endpoint. simpl. intros H.
  apply String.app_inj in H. apply (String.app_inj "/indices/") in H.
  apply string_app_self in H. by destruct (arg_index a).
Qed.

Lemma upload_is_not_replace (a : args) self index_name products :
  self = new_client (arg_hashid a) (arg_token a) (arg_zone a) (arg_batch_size a) →
  req_url (upload_request self index_name products) ≠ replace_endpoint a.
Proof.
  intros ->. unfold replace_endpoint. simpl. intros H.
  apply String.app_inj in H. cbv [String.append] in H. discriminate.
Qed.

Section Runs.
Variable E : env.
Variable a : args.

Local Abbreviation client :=
  (new_client (arg_hashid a) (arg_token a) (arg_zone a) (arg_batch_size a)).

Lemma run_pool_run workers index_name batches w :
  (∃ e, run_pool E client workers index_name batches w = (w, inl e))
  ∨ ∃ results,
      run_pool E client workers index_name batches w
      = ({| clock_reads := clock_reads w;
            sent := sent w ++ map (upload_request client index_name) batches |},
         inr results)
      ∧ Forall2 batch_result batches results.
Proof.
  unfold run_pool. destruct (workers <=? 0); [left; by eexists|right].
  apply mapM_ingest_batch.
Qed.

(** Everything [upload] returns comes from the stages of [main]. *)
Lemma upload_inv w w1 u :
  upload E a w = (w1, inr u) →
  make_batches (transformed_products u) (arg_batch_size a) = inr (batches u)
  ∧ temp_index u = arg_index a +:+ "_temp"
  ∧ Forall2 batch_result (batches u) (futures u)
  ∧ foldM tally (0, 0, []) (as_completed E (futures u))
    = inr (success_count u, error_count u, error_batches u).
Proof.
  unfold upload. unfold mbind at 1, M_bind, lift at 1.
  destruct (load_json E (arg_file a)) as [e|products]; [done|].
  unfold mbind at 1, lift at 1.
  destruct (py_iter products) as [e|items]; [done|].
  unfold mbind at 1.
  destruct (mapM (transform_product E) items w) as [w2 [e|transformed]]; [done|].
  unfold mbind at 1, lift at 1.
  destruct (make_batches transformed (arg_batch_size a)) as [e|bs] eqn:Hbs; [done|].
  unfold mbind at 1.
  destruct (create_temporary_index_run E client (arg_index a) w2) as (r & -> & Hr).
  destruct r as [e|t]; [done|]. rewrite (Hr t eq_refl).
  unfold mbind at 1.
  destruct (run_pool_run (arg_workers a) (arg_index a +:+ "_temp") bs
              {| clock_reads := clock_reads w2;
                 sent := sent w2 ++ [create_request client (arg_index a)] |})
    as [[e ->]|(results & -> & Hres)]; [done|].
  unfold mbind at 1, lift at 1.
  destruct (foldM tally (0, 0, []) (as_completed E results))
    as [e|[[s er] errs]] eqn:Htally; [done|].
  intros [= <- <-]. simpl. done.
Qed.

(** No stage of [upload] posts to the replace address. *)
Lemma upload_sent w :
  ∃ extra, sent (upload E a w).1 = sent w ++ extra
           ∧ Forall (λ rq, req_url rq ≠ replace_endpoint a) extra.
Proof.
  unfold upload. unfold mbind at 1, M_bind, lift at 1.
  destruct (load_json E (arg_file a)) as [e|products];
    [exists []; by rewrite app_nil_r|].
  unfold mbind at 1, lift at 1.
  destruct (py_iter products) as [e|items]; [exists []; by rewrite app_nil_r|].
  unfold mbind at 1.
  pose proof (mapM_transform_product_sent E items w) as Hsent.
  destruct (mapM (transform_product E) items w) as [w2 [e|transformed]]; simpl in Hsent;
    [exists []; by rewrite app_nil_r|].
  unfold mbind at 1, lift at 1.
  destruct (make_batches transformed (arg_batch_size a)) as [e|bs];
    [exists []; by rewrite app_nil_r|].
  unfold mbind at 1.
  destruct (create_temporary_index_run E client (arg_index a) w2) as (r & -> & Hr).
  assert (Hcreate : req_url (create_request client (arg_index a)) ≠ replace_endpoint a)
    by by apply create_is_not_replace.
  destruct r as [e|t].
  { eexists. simpl. rewrite Hsent. split; [reflexivity|]. by constructor. }
  rewrite (Hr t eq_refl).
  unfold mbind at 1.
  destruct (run_pool_run (arg_workers a) (arg_index a +:+ "_temp") bs
              {| clock_reads := clock_reads w2;
                 sent := sent w2 ++ [create_request client (arg_index a)] |})
    as [[e ->]|(results & -> & Hres)].
  { eexists. simpl. rewrite Hsent. split; [reflexivity|]. by constructor. }
  unfold mbind at 1, lift at 1.
  exists (create_request client (arg_index a)
          :: map (upload_request client (arg_index a +:+ "_temp")) bs).
  split.
  - destruct (foldM tally (0, 0, []) (as_completed E results)) as [e|[[s er] errs]];
      simpl; rewrite Hsent, <- app_assoc; reflexivity.
  - constructor; [done|]. apply Forall_map, Forall_forall. intros b _.
    by apply upload_is_not_replace.
Qed.

Local Abbreviation replace_request := (Ingestion.replace_request a).

Lemma main_world w : (main E a w).1 = (main_try E a w).1.
Proof.
  unfold main, try_except. unfold mbind at 1, M_bind.
  by destruct (main_try E a w) as [w1 [e|r]].
Qed.

(** The log at the end of the [try] block, by the outcome of [upload]. *)
Lemma main_try_sent w :
  sent (main_try E a w).1
  = match upload E a w with
    | (w1, inr u) =>
        if 0 <? success_count u then sent w1 ++ [replace_request] else sent w1
    | (w1, inl _) => sent w1
    end.
Proof.
  unfold main_try. unfold mbind at 1, M_bind.
  pose proof (upload_inv w) as Hinv.
  destruct (upload E a w) as [w1 [e|u]]; [done|].
  destruct (Hinv w1 u eq_refl) as (_ & Htemp & _).
  unfold mbind at 1. destruct (0 <? success_count u); [|done].
  unfold replace_index. rewrite Htemp. run.
  fold (replace_endpoint a). fold (Ingestion.replace_request a).
  destruct (receive _ _) as [e|response]; simpl; [done|].
  by destruct (raise_for_status response) as [e|[]].
Qed.

Lemma replace_invoked_app log extra :
  Forall (λ rq, req_url rq ≠ replace_endpoint a) log →
  replace_invoked a (log ++ extra) ↔ replace_invoked a extra.
Proof.
  intros Hlog. unfold replace_invoked. split.
  - intros (rq & Hin & Hpost & Hurl). apply elem_of_app in Hin as [Hin|Hin].
    + rewrite Forall_forall in Hlog. by destruct (Hlog rq Hin).
    + eauto.
  - intros (rq & Hin & Hrest). exists rq. split; [|done]. apply elem_of_app. by right.
Qed.

Lemma replace_invoked_nil : ¬ replace_invoked a [].
Proof. intros (rq & Hin & _). by apply elem_of_nil in Hin. Qed.

Lemma replace_invoked_request : replace_invoked a [replace_request].
Proof. exists replace_request. split; [apply list_elem_of_singleton|]; done. Qed.

(** The replace request is in the log of a run from the empty log exactly
    when [upload] ends with a positive [success_count]. *)
Lemma replace_invoked_iff :
  replace_invoked a (sent (main E a initial_world).1)
  ↔ ∃ w1 u, upload E a initial_world = (w1, inr u) ∧ 0 < success_count u.
Proof.
  rewrite main_world, main_try_sent.
  destruct (upload_sent initial_world) as (extra & Hsent & Hextra).
  destruct (upload E a initial_world) as [w1 [e|u]]; simpl in Hsent.
  - rewrite Hsent. rewrite <- (app_nil_r extra), replace_invoked_app by done.
    split; [by intros ?%replace_invoked_nil|by intros (? & ? & [=] & _)].
  - rewrite Hsent. destruct (Z.ltb_spec 0 (success_count u)).
    + rewrite replace_invoked_app by done.
      split; [eauto|]. intros _. apply replace_invoked_request.
    + rewrite <- (app_nil_r extra), replace_invoked_app by done.
      split; [by intros ?%replace_invoked_nil|].
      intros (? & ? & [= <- <-] & ?). lia.
Qed.

End Runs.

(** C1 (amended).  The replace request is posted exactly when the run
    reaches the decision with an aggregated [success_count] above zero,
    whatever [error_count] is.  A run in which no batch succeeds (the run
    with no batch included) does not post it, and a run in which some
    succeeded batch returned at least one item does. *)
Theorem replace_iff_success_count (E : env) (a : args) :
  let invoked := replace_invoked a (sent (main E a initial_world).1) in
  (invoked ↔ ∃ w1 u, upload E a initial_world = (w1, inr u) ∧ 0 < success_count u)
  ∧ (∀ w1 u, upload E a initial_world = (w1, inr u) →
             Forall (λ r, succeeded r = false) (futures u) → ¬ invoked)
  ∧ (∀ w1 u, upload E a initial_world = (w1, inr u) →
             Exists (λ r, 0 < returned_items r) (futures u) → invoked).
Proof.
  simpl. split; [apply replace_invoked_iff|]. split.
  - intros w1 u Hup Hfailed. rewrite replace_invoked_iff.
    intros (w1' & u' & Hup' & Hpos). rewrite Hup in Hup'. injection Hup' as <- <-.
    apply upload_inv in Hup as (_ & _ & Hres & Htally).
    apply tally_sums in Htally as (Hs & _).
    rewrite (sumZ_perm _ (returned_items <$> futures u)) in Hs
      by apply fmap_Permutation, as_completed_perm.
    assert (sumZ (returned_items <$> futures u) = 0); [|lia].
    clear Hs Hpos Hres. induction Hfailed as [|r rs Hr _ IH]; [done|].
    rewrite fmap_cons, sumZ_cons, IH. unfold returned_items. by rewrite Hr.
  - intros w1 u Hup Hsome. rewrite replace_invoked_iff. exists w1, u. split; [done|].
    apply upload_inv in Hup as (_ & _ & _ & Htally).
    apply tally_sums in Htally as (-> & _).
    rewrite (sumZ_perm _ (returned_items <$> futures u))
      by apply fmap_Permutation, as_completed_perm.
    induction Hsome as [r rs Hr|r rs _ IH]; rewrite fmap_cons, sumZ_cons.
    + pose proof (sum_returned_items_nonneg rs). simpl in Hr. lia.
    + pose proof (returned_items_nonneg r). lia.
Qed.

(** C2 (amended).  When the aggregation loop ends, every batch has one result
    of one of the two shapes, [success_count] is the sum over the succeeded
    batches of the lengths of the returned data, [error_count] is the sum of
    the sizes of the failed batches, and the two add up to the number of
    transformed items when the batch size is positive and the service
    returned, for each succeeded batch, as many items as the batch holds. *)
Theorem aggregated_counts (E : env) (a : args) (w w1 : world) (u : uploaded) :
  upload E a w = (w1, inr u) →
  make_batches (transformed_products u) (arg_batch_size a) = inr (batches u)
  ∧ Forall2 batch_result (batches u) (futures u)
  ∧ success_count u = sumZ (returned_items <$> futures u)
  ∧ error_count u = sumZ (failed_items <$> futures u)
  ∧ Forall2 (λ b r, succeeded r = false → failed_items r = Z.of_nat (length b))
            (batches u) (futures u)
  ∧ (0 < arg_batch_size a →
     Forall2 (λ b r, succeeded r = true → returned_items r = Z.of_nat (length b))
             (batches u) (futures u) →
     success_count u + error_count u = Z.of_nat (length (transformed_products u))).
Proof.
  intros Hup. apply upload_inv in Hup as (Hbs & _ & Hres & Htally).
  apply tally_sums in Htally as (Hs & He & _).
  rewrite (sumZ_perm _ (returned_items <$> futures u)) in Hs
    by apply fmap_Permutation, as_completed_perm.
  rewrite (sumZ_perm _ (failed_items <$> futures u)) in He
    by apply fmap_Permutation, as_completed_perm.
  simpl in Hs, He. repeat split; try done.
  - eapply Forall2_impl; [exact Hres|]. intros b r Hbr. by apply batch_result_failed_items.
  - intros Hsize Hecho.
    pose proof (make_batches_concat _ _ _ Hsize Hbs) as Hcat.
    rewrite Hs, He, <- Hcat. clear Hs He Hbs Hcat.
    induction Hres as [|b r bs rs Hbr _ IH]; [done|].
    apply Forall2_cons in Hecho as [Hb Hecho].
    rewrite !fmap_cons, !sumZ_cons, concat_cons, length_app, Nat2Z.inj_add.
    specialize (IH Hecho).
    destruct (succeeded r) eqn:Hok.
    + rewrite (Hb eq_refl).
      assert (failed_items r = 0) as -> by (unfold failed_items; by rewrite Hok). lia.
    + rewrite (batch_result_failed_items b r Hbr Hok).
      rewrite (batch_result_returned_items b r Hbr Hok). lia.
Qed.

Lemma replace_iff_success_count_witness :
  replace_invoked (sample_args 2) (sent (main env_echo (sample_args 2) initial_world).1).
Proof.
  destruct (replace_iff_success_count env_echo (sample_args 2)) as (_ & _ & Hsome).
  destruct (upload env_echo (sample_args 2) initial_world) as [w1 [e|u]] eqn:Hup;
    [vm_compute in Hup; discriminate|].
  apply (Hsome w1 u eq_refl).
  vm_compute in Hup. injection Hup as <- <-.
  apply Exists_cons_hd. vm_compute. reflexivity.
Defined.

(** C1, as stated, fails: the only batch succeeds, the service returns an
    empty list, and the production index is not replaced. *)
Lemma replace_claim_counterexample :
  ∃ w1 u,
    upload env_empty (sample_args 100) initial_world = (w1, inr u)
    ∧ Exists (λ r, succeeded r = true) (futures u)
    ∧ ¬ replace_invoked (sample_args 100)
          (sent (main env_empty (sample_args 100) initial_world).1).
Proof.
  eexists _, _. split; [vm_compute; reflexivity|]. split.
  - apply Exists_cons_hd. reflexivity.
  - rewrite replace_invoked_iff. intros (w1 & u & Hup & Hpos).
    vm_compute in Hup. injection Hup as <- <-. simpl in Hpos. lia.
Qed.

Lemma aggregated_counts_witness :
  ∃ w1 u,
    upload env_echo (sample_args 2) initial_world = (w1, inr u)
    ∧ success_count u = 3 ∧ error_count u = 2
    ∧ success_count u + error_count u = Z.of_nat (length (transformed_products u)).
Proof.
  destruct (upload env_echo (sample_args 2) initial_world) as [w1 [e|u]] eqn:Hup;
    [vm_compute in Hup; discriminate|].
  exists w1, u. split; [reflexivity|].
  destruct (aggregated_counts env_echo (sample_args 2) initial_world w1 u Hup)
    as (_ & _ & Hs & He & _ & Hsum).
  vm_compute in Hup. injection Hup as <- <-.
  split; [exact Hs|]. split; [exact He|].
  apply Hsum; [reflexivity|].
  repeat (constructor; [vm_compute; intros; (reflexivity || discriminate)|]).
  constructor.
Defined.

(** C2, as stated, fails: every batch resolves, and the two counters add up
    to 0 for one transformed item. *)
Lemma aggregated_counts_counterexample :
  ∃ w1 u,
    upload env_empty (sample_args 100) initial_world = (w1, inr u)
    ∧ length (futures u) = length (batches u)
    ∧ Forall (λ r, succeeded r = true) (futures u)
    ∧ success_count u + error_count u ≠ Z.of_nat (length (transformed_products u)).
Proof.
  eexists _, _. split; [vm_compute; reflexivity|].
  split; [reflexivity|]. split; [by repeat constructor|]. simpl. lia.
Qed.



Lemma upload_transform_fails (E : env) a items w w2 e :
  load_json E (arg_file a) = inr (PList items) →
  mapM (transform_product E) items w = (w2, inl e) →
  upload E a w = (w2, inl e).
Proof.
  intros Hload Hmap. unfold upload. unfold mbind at 1, M_bind, lift at 1.
  rewrite Hload. cbv beta iota. unfold mbind at 1, lift at 1. cbv beta iota.
  cbn [py_iter]. cbv beta iota. unfold mbind at 1.
  by destruct (mapM (transform_product E) items w) as [w' [e'|ts]]; simplify_eq.
Qed.

Lemma main_upload_fails (E : env) a w w1 e :
  upload E a w = (w1, inl e) → main E a w = (w1, inr 1).
Proof.
  intros Hup. unfold main, try_except, main_try.
  unfold mbind at 1, M_bind. unfold mbind at 1. by rewrite Hup.
Qed.

(** C4.  [transform_product] raises on a record exactly when the record has
    no [title]; the exception is [KeyError('title')], and a run that loads
    such a record exits with status 1 before any request is sent. *)
Theorem transform_product_fails_iff_no_title (E : env) (w : world)
    (product : list (string * pyval)) :
  ((∃ e, (transform_product E (PDict product) w).2 = inl e)
   ↔ dict_lookup "title" product = None)
  ∧ (dict_lookup "title" product = None →
     (transform_product E (PDict product) w).2 = inl (KeyError "title"))
  ∧ (∀ a items,
       load_json E (arg_file a) = inr (PList items) →
       PDict product ∈ items →
       dict_lookup "title" product = None →
       (main E a initial_world).2 = inr 1 ∧ sent (main E a initial_world).1 = []).
Proof.
  rewrite transform_product_run. unfold dict_subscript. simpl.
  split; [|split].
  - destruct (dict_lookup "title" product); simpl; split; try done.
    + by intros [e ?].
    + eauto.
  - by intros ->.
  - intros a items Hload Hin Hnone.
    assert (Hbad : Exists (λ p, ∃ d, p = PDict d ∧ dict_lookup "title" d = None) items).
    { apply Exists_exists. eauto. }
    pose proof (mapM_transform_product_fails E items initial_world Hbad) as [e He].
    pose proof (mapM_transform_product_sent E items initial_world) as Hsent.
    destruct (mapM (transform_product E) items initial_world) as [w2 [e'|ts]] eqn:Hmap;
      simpl in *; [|done].
    by rewrite (main_upload_fails E a _ _ _ (upload_transform_fails E a _ _ _ _ Hload Hmap)).
Qed.

Lemma transform_product_fails_iff_no_title_witness :
  (transform_product env_untitled (PDict [("url", PStr "http://x/")]) initial_world).2
  = inl (KeyError "title")
  ∧ (main env_untitled (sample_args 100) initial_world).2 = inr 1.
Proof.
  destruct (transform_product_fails_iff_no_title env_untitled initial_world
              [("url", PStr "http://x/")]) as (_ & Hraise & Hfatal).
  split; [apply Hraise; reflexivity|].
  apply (Hfatal (sample_args 100) [titled "a"; PDict [("url", PStr "http://x/")]]).
  - reflexivity.
  - do 2 constructor.
  - reflexivity.
Defined.

End IngestionFacts.

(** ** Facts about the search tool *)
Module SearchFacts.
Import Py Search.

(** *** The code is its stages *)

Lemma search_params_stages sid query page rpp indices filters sort facets query_name :
  search_params sid query page rpp indices filters sort facets query_name
  = (params ← filter_stage filters (search_base sid query page rpp indices);
     params ← indexed_stage sort_name sort params;
     params ← indexed_stage facet_name facets params;
     inr (if truthy query_name then <["query_name" := query_name]> params else params)).
Proof. reflexivity. Qed.

Lemma similar_products_params_stages sid product_id rpp exclude_self filters :
  similar_products_params sid product_id rpp exclude_self filters
  = filter_stage filters (similar_base sid product_id rpp exclude_self).
Proof. reflexivity. Qed.

Lemma search_params_inv sid query page rpp indices filters sort facets query_name params :
  search_params sid query page rpp indices filters sort facets query_name = inr params →
  ∃ p1 p2 p3,
    filter_stage filters (search_base sid query page rpp indices) = inr p1
    ∧ indexed_stage sort_name sort p1 = inr p2
    ∧ indexed_stage facet_name facets p2 = inr p3
    ∧ params = if truthy query_name then <["query_name" := query_name]> p3 else p3.
Proof.
  rewrite search_params_stages.
  destruct (filter_stage _ _) as [|p1]; [done|].
  change (inr p1 ≫= ?f) with (f p1). cbv beta.
  destruct (indexed_stage sort_name sort p1) as [|p2] eqn:Hsort; [done|].
  change (inr p2 ≫= ?f) with (f p2). cbv beta.
  destruct (indexed_stage facet_name facets p2) as [|p3] eqn:Hfacets; [done|].
  intros [= <-]. by exists p1, p2, p3.
Qed.

(** *** Sequences of assignments *)

Lemma apply_all_app l1 l2 params :
  apply_all (l1 ++ l2) params = apply_all l2 (apply_all l1 params).
Proof. apply foldl_app. Qed.

Lemma apply_all_union l params :
  apply_all l params = list_to_map (reverse l) ∪ params.
Proof.
  induction l as [|[k v] l IH] using rev_ind.
  - simpl. by rewrite (left_id_L ∅ (∪)).
  - unfold apply_all in *. rewrite foldl_snoc, IH, reverse_snoc. simpl.
    unfold assign. simpl. by rewrite insert_union_l.
Qed.

Lemma lookup_apply_all_notin l params k :
  k ∉ l.*1 → apply_all l params !! k = params !! k.
Proof.
  intros Hk. rewrite apply_all_union. apply lookup_union_r.
  apply not_elem_of_list_to_map. by rewrite fmap_reverse, elem_of_reverse.
Qed.

Lemma apply_all_nodup l params :
  NoDup l.*1 → apply_all l params = list_to_map l ∪ params.
Proof.
  intros Hl. rewrite apply_all_union. f_equal.
  apply list_to_map_proper; [|apply reverse_Permutation].
  by rewrite fmap_reverse, reverse_Permutation.
Qed.

Lemma rename_loop (name : string → string) d (params : gmap string pyval) :
  foldl (λ (params : gmap string pyval) '(key, value), <[name key := value]> params) params d
  = apply_all (rename name d) params.
Proof.
  revert params. induction d as [|[k v] d IH]; intros params; [done|].
  simpl. rewrite IH. done.
Qed.

(** *** What each stage computes *)

Lemma filter_loop_run fs params :
  foldM (λ (params : gmap string pyval) '(field, conditions),
           match conditions with
           | PDict ops =>
               inr (foldl (λ (params : gmap string pyval) '(op, value),
                             <["filter[" +:+ field +:+ "][" +:+ op +:+ "]" := value]> params)
                          params ops)
           | _ => inr (<["filter[" +:+ field +:+ "][]" := conditions]> params)
           end) params fs
  = inr (apply_all (flatten_filters fs) params).
Proof.
  revert params. induction fs as [|[field conditions] fs IH]; intros params; [done|].
  simpl. rewrite apply_all_app.
  destruct conditions; simpl; try apply IH.
  rewrite (rename_loop (filter_name field)). apply IH.
Qed.

Lemma filter_stage_dict fs params :
  filter_stage (PDict fs) params = inr (apply_all (flatten_filters fs) params).
Proof.
  unfold filter_stage. destruct fs as [|f fs]; [done|].
  change (truthy (PDict (f :: fs))) with true. simpl dict_method.
  apply filter_loop_run.
Qed.

(** A value that is neither empty nor a dict makes the filter block raise. *)
Lemma filter_stage_inv filters params params' :
  filter_stage filters params = inr params' →
  (truthy filters = false ∧ params' = params)
  ∨ ∃ fs, filters = PDict fs ∧ params' = apply_all (flatten_filters fs) params.
Proof.
  unfold filter_stage. destruct (truthy filters) eqn:Htruthy.
  - destruct filters; try done. simpl dict_method.
    change (inr d ≫= ?f) with (f d). cbv beta. rewrite filter_loop_run.
    intros [= <-]. right. eauto.
  - intros [= <-]. by left.
Qed.



(** A stage touches none of the names outside its family. *)
Lemma indexed_loop_frame name entries params params' k :
  (∀ i key, k ≠ name i key) →
  indexed_loop name params entries = inr params' →
  params' !! k = params !! k.
Proof.
  intros Hk. revert params. induction entries as [|[i e] entries IH]; intros params.
  - by intros [= <-].
  - unfold indexed_loop. simpl. destruct (dict_method "items" e) as [|d]; [done|].
    simpl. intros Hrest. apply IH in Hrest. rewrite Hrest.
    rewrite (rename_loop (name i)). apply lookup_apply_all_notin.
    unfold rename. rewrite <- list_fmap_compose. intros Hin.
    apply list_elem_of_fmap in Hin as ([key v] & -> & _). by eapply Hk.
Qed.

Lemma indexed_stage_frame name entries params params' k :
  (∀ i key, k ≠ name i key) →
  indexed_stage name entries params = inr params' →
  params' !! k = params !! k.
Proof.
  intros Hk. unfold indexed_stage. destruct (truthy entries); [|by intros [= <-]].
  destruct (py_iter entries) as [|l]; [done|]. by apply indexed_loop_frame.
Qed.

(** *** Names of the three families *)

Lemma flatten_filter_names field conditions kv :
  kv ∈ flatten_filter field conditions → is_filter_name kv.1 = true.
Proof.
  destruct conditions; simpl; try (intros ->%list_elem_of_singleton; reflexivity).
  unfold rename. intros ([op v] & -> & _)%list_elem_of_fmap. reflexivity.
Qed.

Lemma flatten_filters_names fs kv :
  kv ∈ flatten_filters fs → is_filter_name kv.1 = true.
Proof.
  induction fs as [|[field conditions] fs IH]; simpl.
  - by intros ?%elem_of_nil.
  - intros [Hin|Hin]%elem_of_app; [by eapply flatten_filter_names|by apply IH].
Qed.

Lemma filter_name_not_indexed k :
  is_filter_name k = true →
  (∀ i key, k ≠ sort_name i key) ∧ (∀ i key, k ≠ facet_name i key).
Proof. intros Hk. split; intros i key ->; discriminate. Qed.

Lemma sort_name_not_facet k :
  is_sort_name k = true → ∀ i key, k ≠ facet_name i key.
Proof. intros Hk i key ->. discriminate. Qed.

Lemma facet_name_not_sort k :
  is_facet_name k = true → ∀ i key, k ≠ sort_name i key.
Proof. intros Hk i key ->. discriminate. Qed.

Lemma startswith_inv s p : startswith s p = true → ∃ r, s = p +:+ r.
Proof.
  revert s. induction p as [|a p IH]; intros s; [by exists s|].
  destruct s as [|b s]; [done|]. simpl.
  intros [Hab Hrest]%andb_prop. apply Ascii.eqb_eq in Hab as <-.
  destruct (IH s Hrest) as [r ->]. by exists r.
Qed.

Lemma filter_name_not_other k :
  is_filter_name k = true → is_sort_name k = false ∧ is_facet_name k = false.
Proof. intros [r ->]%startswith_inv. done. Qed.

Lemma indexed_name_not_filter fs k :
  is_sort_name k = true ∨ is_facet_name k = true → k ∉ (flatten_filters fs).*1.
Proof.
  intros Hk ([k' v] & -> & Hin%flatten_filters_names)%list_elem_of_fmap. simpl in *.
  apply filter_name_not_other in Hin as [Hs Hf]. destruct Hk; congruence.
Qed.

(** The parameters [search] and [similar_products] start from hold no name of
    the three families. *)
Lemma search_base_lookup sid query page rpp indices k :
  is_filter_name k = true ∨ is_sort_name k = true ∨ is_facet_name k = true →
  search_base sid query page rpp indices !! k = None.
Proof.
  intros Hk.
  assert (k ≠ "indices[]" ∧ k ≠ "session_id" ∧ k ≠ "rpp" ∧ k ≠ "page" ∧ k ≠ "query")
    as (? & ? & ? & ? & ?).
  { repeat split; intros ->; by destruct Hk as [|[|]]. }
  unfold search_base. destruct (truthy indices); by rewrite !lookup_insert_ne.
Qed.

Lemma similar_base_lookup sid product_id rpp exclude_self k :
  is_filter_name k = true →
  similar_base sid product_id rpp exclude_self !! k = None.
Proof.
  intros Hk.
  assert (k ≠ "session_id" ∧ k ≠ "exclude_self" ∧ k ≠ "rpp" ∧ k ≠ "dfid")
    as (? & ? & ? & ?).
  { repeat split; by intros ->. }
  unfold similar_base. by rewrite !lookup_insert_ne.
Qed.

(** *** The parameters of one family *)

Lemma family_restrict (P : string → bool) l base (params : gmap string pyval) :
  (∀ k, P k = true → params !! k = apply_all l base !! k) →
  (∀ k, P k = true → base !! k = None) →
  (∀ kv, kv ∈ l → P kv.1 = true) →
  filter (λ kv, P kv.1 = true) params = list_to_map (reverse l).
Proof.
  intros Hparams Hbase Hl. apply map_eq. intros k. apply option_eq. intros v.
  rewrite map_lookup_filter_Some. simpl. split.
  - intros [Hk HP]. rewrite (Hparams k HP), apply_all_union in Hk.
    by rewrite lookup_union_l in Hk by by apply Hbase.
  - intros Hk.
    assert (HP : P k = true).
    { apply elem_of_list_to_map_2 in Hk. rewrite elem_of_reverse in Hk.
      exact (Hl (k, v) Hk). }
    split; [|done]. rewrite (Hparams k HP), apply_all_union.
    by rewrite lookup_union_l by by apply Hbase.
Qed.

Lemma list_to_map_reverse_nodup (l : list (string * pyval)) :
  NoDup l.*1 →
  list_to_map (reverse l) =@{gmap string pyval} list_to_map l
  ∧ map_to_list (list_to_map (M := gmap string pyval) l) ≡ₚ l.
Proof.
  intros Hl. split; [|by apply map_to_list_to_map].
  apply list_to_map_proper; [|apply reverse_Permutation].
  by rewrite fmap_reverse, reverse_Permutation.
Qed.

(** The filter parameters of a [search] request: the flattened filters,
    assigned in order. *)
Lemma search_filter_params sid query page rpp indices fs sort facets query_name params :
  search_params sid query page rpp indices (PDict fs) sort facets query_name = inr params →
  filter_params params = list_to_map (reverse (flatten_filters fs)).
Proof.
  intros (p1 & p2 & p3 & Hp1 & Hp2 & Hp3 & ->)%search_params_inv.
  rewrite filter_stage_dict in Hp1. injection Hp1 as <-.
  apply (family_restrict is_filter_name _ (search_base sid query page rpp indices)).
  - intros k Hk. destruct (filter_name_not_indexed k Hk) as [Hsort Hfacet].
    rewrite <- (indexed_stage_frame _ _ _ _ k Hsort Hp2).
    rewrite <- (indexed_stage_frame _ _ _ _ k Hfacet Hp3).
    destruct (truthy query_name); [|done].
    apply lookup_insert_ne. by intros <-.
  - intros k Hk. apply search_base_lookup. by left.
  - apply flatten_filters_names.
Qed.

Lemma similar_filter_params sid product_id rpp exclude_self fs :
  ∃ params,
    similar_products_params sid product_id rpp exclude_self (PDict fs) = inr params
    ∧ filter_params params = list_to_map (reverse (flatten_filters fs)).
Proof.
  rewrite similar_products_params_stages, filter_stage_dict. eexists. split; [done|].
  apply (family_restrict is_filter_name _ (similar_base sid product_id rpp exclude_self)).
  - done.
  - apply similar_base_lookup.
  - apply flatten_filters_names.
Qed.

Lemma elem_of_flatten_filters fs field conditions kv :
  (field, conditions) ∈ fs → kv ∈ flatten_filter field conditions →
  kv ∈ flatten_filters fs.
Proof.
  induction fs as [|[f c] fs IH]; [by intros ?%elem_of_nil|].
  intros [[= <- <-]|Hin]%elem_of_cons Hkv; simpl; apply elem_of_app; auto.
Qed.

(** C6 (amended).  When no two filters flatten to the same parameter name,
    the filter parameters of a [search] request are exactly the flattened
    ones: [filter[field][op]=value] for each operator of a structured filter
    and [filter[field][]=value] for a scalar filter, and nothing else. *)
Theorem filters_flattened (sid query : string) (page rpp : Z)
    (indices sort facets query_name : pyval) (fs : list (string * pyval))
    (params : gmap string pyval) :
  NoDup (flatten_filters fs).*1 →
  search_params sid query page rpp indices (PDict fs) sort facets query_name = inr params →
  map_to_list (filter_params params) ≡ₚ flatten_filters fs
  ∧ (∀ field ops op value,
       (field, PDict ops) ∈ fs → (op, value) ∈ ops →
       params !! ("filter[" +:+ field +:+ "][" +:+ op +:+ "]") = Some value)
  ∧ (∀ field conditions,
       (field, conditions) ∈ fs → (∀ ops, conditions ≠ PDict ops) →
       params !! ("filter[" +:+ field +:+ "][]") = Some conditions).
Proof.
  intros Hnodup Hrun. apply search_filter_params in Hrun.
  destruct (list_to_map_reverse_nodup _ Hnodup) as [Hrev Hperm].
  rewrite Hrev in Hrun.
  assert (Hlookup : ∀ k v, (k, v) ∈ flatten_filters fs → params !! k = Some v).
  { intros k v Hin. apply (elem_of_list_to_map_1 (M := gmap string)) in Hin; [|done].
    rewrite <- Hrun in Hin. unfold filter_params in Hin.
    by apply map_lookup_filter_Some in Hin as [? _]. }
  split; [by rewrite Hrun|]. split.
  - intros field ops op value Hfield Hop. apply Hlookup.
    eapply elem_of_flatten_filters; [done|]. simpl. unfold rename.
    apply list_elem_of_fmap. by exists (op, value).
  - intros field conditions Hfield Hscalar. apply Hlookup.
    eapply elem_of_flatten_filters; [done|].
    destruct conditions; try apply list_elem_of_singleton; try done.
    by destruct (Hscalar d).
Qed.

Lemma filters_flattened_witness :
  ∃ params,
    search_params "6f1c7a52" "shoes" 1 20 PNone sample_filters PNone PNone PNone
    = inr params
    ∧ map_to_list (filter_params params)
      ≡ₚ [("filter[price][gte]", PInt 100); ("filter[price][lt]", PInt 200);
          ("filter[brand][]", PStr "nike")].
Proof.
  eexists. split; [vm_compute; reflexivity|].
  eapply (filters_flattened "6f1c7a52" "shoes" 1 20 PNone PNone PNone PNone
            [("price", PDict [("gte", PInt 100); ("lt", PInt 200)]);
             ("brand", PStr "nike")]).
  - apply (bool_decide_unpack _). vm_compute. exact I.
  - vm_compute. reflexivity.
Defined.

(** C6, as stated, fails: two filters flatten to the same name, and the
    request carries the later value only. *)
Lemma filters_claim_counterexample :
  ∃ params,
    search_params "6f1c7a52" "shoes" 1 20 PNone clashing_filters PNone PNone PNone
    = inr params
    ∧ params !! ("filter[" +:+ "a" +:+ "][" +:+ "b][" +:+ "]") ≠ Some (PInt 1)
    ∧ size (filter_params params) = 1%nat.
Proof.
  eexists. split; [vm_compute; reflexivity|]. split; [|reflexivity].
  vm_compute. discriminate.
Qed.

(** C10.  For every filters mapping, [similar_products] builds its
    parameters, and their filter part equals the filter part of the
    parameters [search] builds from the same mapping. *)
Theorem similar_products_filters_as_search (sid product_id : string) (rpp : Z)
    (exclude_self : bool) (fs : list (string * pyval)) :
  ∃ similar,
    similar_products_params sid product_id rpp exclude_self (PDict fs) = inr similar
    ∧ ∀ sid' query page rpp' indices sort facets query_name params,
        search_params sid' query page rpp' indices (PDict fs) sort facets query_name
        = inr params →
        filter_params params = filter_params similar.
Proof.
  destruct (similar_filter_params sid product_id rpp exclude_self fs)
    as (similar & Hrun & Hsimilar).
  exists similar. split; [done|]. intros * Hsearch.
  rewrite Hsimilar. by eapply search_filter_params.
Qed.

Lemma similar_products_filters_as_search_witness :
  ∃ similar params,
    similar_products_params "0c9e" "sku-1" 10 true sample_filters = inr similar
    ∧ search_params "6f1c" "shoes" 1 20 PNone sample_filters PNone PNone PNone
      = inr params
    ∧ filter_params params = filter_params similar.
Proof.
  destruct (similar_products_filters_as_search "0c9e" "sku-1" 10 true
              [("price", PDict [("gte", PInt 100); ("lt", PInt 200)]);
               ("brand", PStr "nike")]) as (similar & Hrun & Hsame).
  exists similar. eexists. split; [exact Hrun|]. split; [vm_compute; reflexivity|].
  apply (Hsame "6f1c" "shoes" 1 20 PNone PNone PNone PNone). vm_compute. reflexivity.
Defined.

(** *** Names of indexed entries are pairwise distinct *)










Section Entries.
Variable name : nat → string → string.
Hypothesis name_inj : ∀ i j f g, name i f = name j g → i = j ∧ f = g.



End Entries.



Lemma sort_name_family k :
  is_sort_name k = true → is_filter_name k = false ∧ is_facet_name k = false.
Proof. intros [r ->]%startswith_inv. done. Qed.

Lemma facet_name_family k :
  is_facet_name k = true → is_filter_name k = false ∧ is_sort_name k = false.
Proof. intros [r ->]%startswith_inv. done. Qed.

(** After the filter block no sort or facet parameter is set yet. *)
Lemma after_filters_lookup sid query page rpp indices filters p1 k :
  filter_stage filters (search_base sid query page rpp indices) = inr p1 →
  is_sort_name k = true ∨ is_facet_name k = true →
  p1 !! k = None.
Proof.
  intros [[_ ->]|(fs & -> & ->)]%filter_stage_inv Hk.
  - apply search_base_lookup. tauto.
  - rewrite lookup_apply_all_notin by by apply indexed_name_not_filter.
    apply search_base_lookup. tauto.
Qed.

Lemma filter_stage_absent filters (params params' : gmap string pyval) :
  truthy filters = false → filter_stage filters params = inr params' → params' = params.
Proof. unfold filter_stage. intros ->. by intros [= <-]. Qed.

Lemma indexed_stage_absent name entries (params params' : gmap string pyval) :
  truthy entries = false → indexed_stage name entries params = inr params' →
  params' = params.
Proof. unfold indexed_stage. intros ->. by intros [= <-]. Qed.




(** *** Session identifiers *)

Lemma filter_stage_session filters (params params' : gmap string pyval) :
  filter_stage filters params = inr params' →
  params' !! "session_id" = params !! "session_id".
Proof.
  intros [[_ ->]|(fs & -> & ->)]%filter_stage_inv; [done|].
  apply lookup_apply_all_notin.
  intros ([k v] & Hk & Hin%flatten_filters_names)%list_elem_of_fmap.
  simpl in *. by subst k.
Qed.

Lemma session_not_indexed :
  (∀ i key, "session_id" ≠ sort_name i key) ∧ (∀ i key, "session_id" ≠ facet_name i key).
Proof.
  split; intros i key H.
  - apply (f_equal is_sort_name) in H. change (false = true) in H. done.
  - apply (f_equal is_facet_name) in H. change (false = true) in H. done.
Qed.

Lemma search_params_session sid query page rpp indices filters sort facets query_name params :
  search_params sid query page rpp indices filters sort facets query_name = inr params →
  params !! "session_id" = Some (PStr sid).
Proof.
  intros (p1 & p2 & p3 & Hp1 & Hp2 & Hp3 & ->)%search_params_inv.
  assert (p3 !! "session_id" = Some (PStr sid)) as Hp.
  { rewrite (indexed_stage_frame _ _ _ _ "session_id" (proj2 session_not_indexed) Hp3).
    rewrite (indexed_stage_frame _ _ _ _ "session_id" (proj1 session_not_indexed) Hp2).
    rewrite (filter_stage_session _ _ _ Hp1). unfold search_base.
    destruct (truthy indices); [rewrite lookup_insert_ne by done|];
      apply lookup_insert_eq. }
  destruct (truthy query_name); [|done]. by rewrite lookup_insert_ne.
Qed.

Lemma suggest_params_session sid query indices :
  suggest_params sid query indices !! "session_id" = Some (PStr sid).
Proof.
  unfold suggest_params.
  destruct (truthy indices); [rewrite lookup_insert_ne by done|]; apply lookup_insert_eq.
Qed.

Lemma similar_products_params_session sid product_id rpp exclude_self filters params :
  similar_products_params sid product_id rpp exclude_self filters = inr params →
  params !! "session_id" = Some (PStr sid).
Proof.
  rewrite similar_products_params_stages. intros Hrun%filter_stage_session.
  rewrite Hrun. unfold similar_base. apply lookup_insert_eq.
Qed.

Section Sessions.
Variable E : env.
Variable self : DoofinderSearch.

Local Abbreviation draw := (λ k : nat, Some (PStr (uuid4_str E k))).

Ltac run_call :=
  unfold mbind, M_bind, uuid4, requests_get, lift; simpl.

Ltac finish_call :=
  repeat match goal with
         | |- context [receive ?rq ?o] => destruct (receive rq o); simpl
         | |- context [raise_for_status ?r] => destruct (raise_for_status r) as [?|[]]; simpl
         | |- context [response_json ?r] => destruct (response_json r); simpl
         end.

(** One call takes one identifier from the generator and sends at most one
    request, which carries that identifier. *)
Lemma perform_effect (c : api_call) (w : world) :
  uuid_draws (perform E self c w).1 = S (uuid_draws w)
  ∧ (sent (perform E self c w).1 = sent w
     ∨ ∃ rq, sent (perform E self c w).1 = sent w ++ [rq]
             ∧ session_of rq = draw (uuid_draws w)).
Proof.
  destruct c as [query page rpp indices filters sort facets query_name
                |query indices
                |product_id rpp exclude_self filters]; simpl.
  - unfold search. run_call.
    destruct (search_params _ _ _ _ _ _ _ _ _) as [e|params] eqn:Hparams; simpl;
      [by auto|].
    apply search_params_session in Hparams.
    finish_call; (split; [done|]); right; eexists; (split; [done|]); exact Hparams.
  - unfold suggest. run_call.
    finish_call; (split; [done|]); right; eexists; (split; [done|]);
      apply suggest_params_session.
  - unfold similar_products. run_call.
    destruct (similar_products_params _ _ _ _ _) as [e|params] eqn:Hparams; simpl;
      [by auto|].
    apply similar_products_params_session in Hparams.
    finish_call; (split; [done|]); right; eexists; (split; [done|]); exact Hparams.
Qed.

Lemma perform_all_sessions (cs : list api_call) (w : world) :
  ∃ ks,
    session_of <$> sent (perform_all E self cs w) = (session_of <$> sent w) ++ (draw <$> ks)
    ∧ ks `sublist_of` seq (uuid_draws w) (length cs)
    ∧ uuid_draws (perform_all E self cs w) = (uuid_draws w + length cs)%nat.
Proof.
  revert w. induction cs as [|c cs IH]; intros w.
  - exists []. simpl. rewrite app_nil_r. split; [done|]. split; [done|lia].
  - simpl. destruct (perform_effect c w) as [Hdraws Hsent].
    destruct (IH (perform E self c w).1) as (ks & Hks & Hsub & Hcount).
    rewrite Hdraws in Hsub, Hcount.
    destruct Hsent as [Hsame|(rq & Hmore & Hrq)].
    + exists ks. rewrite Hks, Hsame. split; [done|]. split; [by constructor|lia].
    + exists (uuid_draws w :: ks). rewrite Hks, Hmore, fmap_app. simpl.
      rewrite Hrq, <- app_assoc. split; [done|]. split; [by constructor|lia].
Qed.

End Sessions.

(** C8.  Each [search], [suggest] and [similar_products] call takes one new
    identifier from the generator, its own draw and no earlier one, and the
    request it sends carries that identifier as [session_id]; the identifiers
    of the requests are pairwise distinct, and distinct from those of the
    requests sent before, whenever the draws made do not collide. *)
Theorem session_ids_fresh (E : env) (self : DoofinderSearch) (cs : list api_call)
    (w0 : world) :
  let w := perform_all E self cs w0 in
  let first := uuid_draws w0 in
  (∃ ks, session_of <$> sent w
         = (session_of <$> sent w0) ++ ((λ k, Some (PStr (uuid4_str E k))) <$> ks)
         ∧ ks `sublist_of` seq first (length cs)
         ∧ ((∀ i j, (first ≤ i < first + length cs)%nat →
                    (first ≤ j < first + length cs)%nat →
                    uuid4_str E i = uuid4_str E j → i = j) →
            NoDup ((λ k, Some (PStr (uuid4_str E k))) <$> ks)))
  ∧ uuid_draws w = (first + length cs)%nat.
Proof.
  simpl. destruct (perform_all_sessions E self cs w0) as (ks & Hks & Hsub & Hn).
  split; [|done]. exists ks. split; [done|]. split; [done|].
  intros Hinj.
  assert (Hrange : ∀ k, k ∈ ks →
            (uuid_draws w0 ≤ k < uuid_draws w0 + length cs)%nat).
  { intros k Hk. apply (elem_of_sublist _ _ _ Hk) in Hsub.
    apply elem_of_seq in Hsub. lia. }
  apply NoDup_fmap_2_strong.
  - intros i j Hi Hj [= Hij]. apply Hinj; auto.
  - eapply sublist_NoDup; [apply NoDup_seq|done].
Qed.

Lemma session_ids_fresh_witness :
  NoDup (session_of <$> sent (perform_all env_counting sample_client sample_calls
                                initial_world))
  ∧ length (sent (perform_all env_counting sample_client sample_calls initial_world))
    = 3%nat.
Proof.
  split; [|vm_compute; reflexivity].
  destruct (session_ids_fresh env_counting sample_client sample_calls initial_world)
    as [(ks & -> & _ & Hnodup) _].
  apply Hnodup. intros i j _ _ Hij. simpl in Hij.
  apply String.app_inj in Hij. by apply (inj pretty).
Defined.

End SearchFacts.

(** ** Further facts about the ingestion tool *)
Module IngestionCasesFacts.
Import Py Ingestion IngestionFacts IngestionCases.

Section Unfolded.
Variable E : env.

Lemma create_temporary_index_eq self name w :
  create_temporary_index E self name w
  = ({| clock_reads := clock_reads w; sent := sent w ++ [create_request self name] |},
     match checked E (sent w) (create_request self name) with
     | inr _ => inr (name +:+ "_temp")
     | inl e => inl e
     end).
Proof.
  unfold create_temporary_index, checked.
  unfold mbind, M_bind, exn_bind, mret, M_ret, lift, requests_post. simpl.
  fold (create_request self name).
  destruct (receive _ _) as [e|response]; simpl; [done|].
  by destruct (raise_for_status response) as [e|[]].
Qed.

Lemma replace_index_eq (a : args) w :
  replace_index E (client_of a) (arg_index a +:+ "_temp") (arg_index a) w
  = ({| clock_reads := clock_reads w; sent := sent w ++ [replace_request a] |},
     checked E (sent w) (replace_request a)).
Proof.
  unfold replace_index, checked.
  unfold mbind, M_bind, exn_bind, mret, M_ret, lift, requests_post. simpl.
  fold (replace_endpoint a). fold (replace_request a).
  by destruct (receive _ _) as [e|response].
Qed.

Lemma mapM_ingest_batch_eq self index_name batches w :
  mapM (ingest_batch E self index_name) batches w
  = ({| clock_reads := clock_reads w;
        sent := sent w ++ map (upload_request self index_name) batches |},
     inr (upload_results E self index_name (sent w) batches)).
Proof.
  revert w. induction batches as [|b batches IH]; intros w.
  - simpl. rewrite app_nil_r. by destruct w.
  - rewrite mapM_cons, ingest_batch_run, IH. simpl. rewrite <- app_assoc.
    by destruct (attempt _ _ _).
Qed.

(** [upload], stage by stage. *)
Lemma upload_eq (a : args) (w : world) :
  upload E a w
  = match load_json E (arg_file a) with
    | inl e => (w, inl e)
    | inr products =>
    match py_iter products with
    | inl e => (w, inl e)
    | inr items =>
    match mapM (transform_product E) items w with
    | (w2, inl e) => (w2, inl e)
    | (w2, inr ts) =>
    match make_batches ts (arg_batch_size a) with
    | inl e => (w2, inl e)
    | inr bs =>
    let create := create_request (client_of a) (arg_index a) in
    let w3 := {| clock_reads := clock_reads w2; sent := sent w2 ++ [create] |} in
    match checked E (sent w2) create with
    | inl e => (w3, inl e)
    | inr _ =>
    if arg_workers a <=? 0
    then (w3, inl (ValueError "max_workers must be greater than 0"))
    else
      let temp := arg_index a +:+ "_temp" in
      let w4 := {| clock_reads := clock_reads w2;
                   sent := (sent w2 ++ [create])
                           ++ map (upload_request (client_of a) temp) bs |} in
      let fs := upload_results E (client_of a) temp (sent w2 ++ [create]) bs in
      match foldM tally (0, 0, []) (as_completed E fs) with
      | inl e => (w4, inl e)
      | inr (s, er, errs) =>
          (w4, inr {| transformed_products := ts;
                      batches := bs;
                      temp_index := temp;
                      futures := fs;
                      success_count := s;
                      error_count := er;
                      error_batches := errs |})
      end
    end end end end end.
Proof.
  unfold upload. fold (client_of a). unfold mbind at 1, M_bind, lift at 1.
  destruct (load_json E (arg_file a)) as [e|products]; [done|].
  unfold mbind at 1, lift at 1.
  destruct (py_iter products) as [e|items]; [done|].
  unfold mbind at 1.
  destruct (mapM (transform_product E) items w) as [w2 [e|ts]]; [done|].
  unfold mbind at 1, lift at 1.
  destruct (make_batches ts (arg_batch_size a)) as [e|bs]; [done|].
  unfold mbind at 1. rewrite create_temporary_index_eq.
  destruct (checked E (sent w2) _) as [e|[]]; [done|].
  unfold mbind at 1, run_pool.
  destruct (arg_workers a <=? 0); [done|].
  rewrite mapM_ingest_batch_eq. cbv zeta. simpl sent.
  unfold mbind at 1, lift at 1.
  by destruct (foldM tally (0, 0, []) _) as [e|[[s er] errs]].
Qed.

(** [main], from the outcome of [upload]. *)
Lemma main_eq (a : args) (w : world) :
  main E a w
  = match upload E a w with
    | (w1, inl _) => (w1, inr 1)
    | (w1, inr u) =>
        if 0 <? success_count u then
          ({| clock_reads := clock_reads w1; sent := sent w1 ++ [replace_request a] |},
           match checked E (sent w1) (replace_request a) with
           | inr _ => inr 0
           | inl _ => inr 1
           end)
        else (w1, inr 0)
    end.
Proof.
  unfold main, try_except, main_try. fold (client_of a).
  unfold mbind at 1, M_bind. unfold mbind at 1.
  pose proof (upload_inv E a w) as Hinv.
  destruct (upload E a w) as [w1 [e|u]]; [done|].
  destruct (Hinv w1 u eq_refl) as (_ & -> & _).
  unfold mbind at 1. destruct (0 <? success_count u); [|done].
  rewrite replace_index_eq. by destruct (checked E (sent w1) (replace_request a)) as [e|[]].
Qed.

End Unfolded.

Lemma checked_refused (E : env) log rq :
  (∃ e, checked E log rq = inl e) ↔ refused (remote E log rq).
Proof.
  unfold checked, refused, receive, raise_for_status.
  destruct (remote E log rq) as [m|st rs body]; simpl.
  - split; [done|]. by eexists.
  - destruct ((400 <=? st) && (st <? 500)) eqn:H4; simpl.
    { apply andb_prop in H4 as [?%Z.leb_le ?%Z.ltb_lt]. split; [lia|by eexists]. }
    destruct ((500 <=? st) && (st <? 600)) eqn:H5; simpl.
    { apply andb_prop in H5 as [?%Z.leb_le ?%Z.ltb_lt]. split; [lia|by eexists]. }
    split; [by intros [e ?]|]. intros Hst.
    apply andb_false_iff in H4 as [?%Z.leb_gt|?%Z.ltb_ge];
      apply andb_false_iff in H5 as [?%Z.leb_gt|?%Z.ltb_ge]; lia.
Qed.

Lemma checked_accepted (E : env) log rq :
  checked E log rq = inr () ↔ ¬ refused (remote E log rq).
Proof.
  rewrite <- checked_refused. destruct (checked E log rq) as [e|[]]; split.
  - done.
  - intros H. destruct H. by eexists.
  - by intros _ [e' ?].
  - done.
Qed.

Lemma transformed_sent (E : env) items w2 r :
  mapM (transform_product E) items initial_world = (w2, r) → sent w2 = [].
Proof.
  intros Hrun. pose proof (mapM_transform_product_sent E items initial_world) as Hsent.
  by rewrite Hrun in Hsent.
Qed.

Lemma string_app_fixed (s t : string) : s +:+ t = s → t = "".
Proof. intros H. symmetry in H. by apply string_app_self in H. Qed.

End IngestionCasesFacts.
Module IngestionRuns.
Import Py Ingestion IngestionFacts IngestionCases IngestionCasesFacts.

(** The cases of a run from the empty log, in the order of [main]. *)
Ltac split_run E a :=
  rewrite (main_eq E a), (upload_eq E a);
  destruct (load_json E (arg_file a)) as [?e|?products] eqn:Hload; [|
  destruct (py_iter _) as [?e|?items] eqn:Hiter; [|
  destruct (mapM (transform_product E) _ initial_world) as [?w2 [?e|?ts]] eqn:Hmap;
    [pose proof (transformed_sent _ _ _ _ Hmap) as Hsent
    |pose proof (transformed_sent _ _ _ _ Hmap) as Hsent;
  destruct (make_batches _ (arg_batch_size a)) as [?e|?bs] eqn:Hbs; [|
  cbv zeta; rewrite ?Hsent;
  destruct (checked E _ (create_request _ _)) as [?e|[]] eqn:Hcreate; [|
  destruct (arg_workers a <=? 0) eqn:Hworkers; [|
  destruct (foldM tally _ _) as [?e|[[?s ?er] ?errs]] eqn:Htally; [|
  simpl success_count; destruct (0 <? _) eqn:Hpos ]]]]]]].

Lemma main_log_cases (E : env) (a : args) :
  let log := sent (main E a initial_world).1 in
  log = []
  ∨ ∃ bs tail,
      log = create_request (client_of a) (arg_index a)
            :: map (upload_request (client_of a) (arg_index a +:+ "_temp")) bs ++ tail
      ∧ (tail = [] ∨ tail = [replace_request a]).
Proof.
  simpl. split_run E a; simpl; rewrite ?Hsent; simpl; auto.
  - right. exists [], []. auto.
  - right. exists [], []. auto.
  - right. exists bs, []. rewrite app_nil_r. auto.
  - right. exists bs, [replace_request a]. auto.
  - right. exists bs, []. rewrite app_nil_r. auto.
Qed.


Lemma create_is_not_production (a : args) :
  req_url (create_request (client_of a) (arg_index a)) ≠ production_items_endpoint a.
Proof.
  unfold production_items_endpoint. simpl. intros H.
  apply String.app_inj in H. cbv [String.append] in H. discriminate.
Qed.

Lemma replace_is_not_production (a : args) :
  req_url (replace_request a) ≠ production_items_endpoint a.
Proof.
  unfold production_items_endpoint, replace_endpoint. simpl. intros H.
  apply String.app_inj in H. cbv [String.append] in H. discriminate.
Qed.

Lemma staged_upload_is_not_production (a : args) products :
  req_url (upload_request (client_of a) (arg_index a +:+ "_temp") products)
  ≠ production_items_endpoint a.
Proof.
  unfold production_items_endpoint. simpl. intros H.
  apply String.app_inj in H. apply (String.app_inj "/items/") in H.
  apply string_app_fixed in H. discriminate.
Qed.

(** X2. Every request of an ingestion run is a POST that carries the JSON
    content type and the Authorization header 'Token <token>', and none is
    addressed to the items endpoint of the production index: uploads only
    ever go to the temporary index. *)
Theorem requests_authorised_and_staged (E : env) (a : args) :
  Forall (λ rq, req_method rq = POST
                ∧ req_headers rq = [("Content-Type", "application/json");
                                    ("Authorization", "Token " +:+ arg_token a)]
                ∧ req_url rq ≠ production_items_endpoint a)
         (sent (main E a initial_world).1).
Proof.
  destruct (main_log_cases E a) as [->|(bs & tail & -> & Htail)]; [constructor|].
  constructor; [by auto using create_is_not_production|].
  apply Forall_app. split.
  - apply Forall_map, Forall_forall. intros b _.
    by auto using staged_upload_is_not_production.
  - destruct Htail as [->| ->]; [constructor|].
    constructor; [|constructor]. by auto using replace_is_not_production.
Qed.

(** X3. If the first request of a run is refused (no response, or a status in
    400..599), that request is the creation of the temporary index, nothing
    else is sent and the run exits with status 1. *)
Theorem creation_failure_is_fatal (E : env) (a : args) (rq : http_request)
    (rest : list http_request) :
  sent (main E a initial_world).1 = rq :: rest →
  refused (remote E [] rq) →
  rq = create_request (client_of a) (arg_index a)
  ∧ rest = []
  ∧ (main E a initial_world).2 = inr 1.
Proof.
  split_run E a; simpl; rewrite ?Hsent; simpl; intros Hlog Hrefused;
    simplify_eq; try done.
  all: apply checked_refused in Hrefused as [e' He']; congruence.
Qed.

Lemma creation_failure_is_fatal_witness :
  sent (main env_refused (sample_args 100) initial_world).1
  = [create_request (client_of (sample_args 100)) "product"]
  ∧ (main env_refused (sample_args 100) initial_world).2 = inr 1.
Proof.
  destruct (creation_failure_is_fatal env_refused (sample_args 100)
              (create_request (client_of (sample_args 100)) "product") [])
    as (_ & _ & Hexit).
  - vm_compute. reflexivity.
  - simpl. lia.
  - split; [vm_compute; reflexivity|exact Hexit].
Defined.

(** X4. When a run ends with the replace request, everything before it is the
    creation request and the uploads of all batches, and the exit status is
    0 exactly when the replace request is not refused and 1 exactly when it
    is: a refused replace fails the run after all uploads were made. *)
Theorem replace_failure_after_uploads (E : env) (a : args) (log : list http_request) :
  sent (main E a initial_world).1 = log ++ [replace_request a] →
  (∃ w1 u, upload E a initial_world = (w1, inr u) ∧ sent w1 = log
           ∧ log = create_request (client_of a) (arg_index a)
                   :: map (upload_request (client_of a) (arg_index a +:+ "_temp"))
                          (batches u))
  ∧ ((main E a initial_world).2 = inr 0 ↔ ¬ refused (remote E log (replace_request a)))
  ∧ ((main E a initial_world).2 = inr 1 ↔ refused (remote E log (replace_request a))).
Proof.
  intros Hlog.
  assert (Hinvoked : replace_invoked a (sent (main E a initial_world).1)).
  { rewrite Hlog. exists (replace_request a). split; [|done].
    apply elem_of_app. right. constructor. }
  apply replace_invoked_iff in Hinvoked as (w1 & u & Hup & Hpos).
  revert Hlog. rewrite (main_eq E a), Hup.
  apply Z.ltb_lt in Hpos as ->. simpl. intros [Hw1 _]%app_inj_tail.
  rewrite Hw1. split.
  - exists w1, u. split; [done|]. split; [done|]. rewrite <- Hw1.
    revert Hup. rewrite (upload_eq E a).
    destruct (load_json E (arg_file a)) as [?e|?products]; [done|].
    destruct (py_iter _) as [?e|?items]; [done|].
    destruct (mapM (transform_product E) _ initial_world) as [?w2 [?e|?ts]] eqn:Hmap;
      [done|]. apply transformed_sent in Hmap.
    destruct (make_batches _ (arg_batch_size a)) as [?e|?bs]; [done|].
    cbv zeta. rewrite Hmap.
    destruct (checked E _ (create_request _ _)) as [?e|[]]; [done|].
    destruct (arg_workers a <=? 0); [done|].
    destruct (foldM tally _ _) as [?e|[[?s ?er] ?errs]]; [done|].
    by intros [= <- <-].
  - rewrite <- checked_accepted, <- checked_refused.
    destruct (checked E log (replace_request a)) as [e|[]]; split; split; try done.
    + by eexists.
    + by intros [e ?].
Qed.

Lemma replace_failure_after_uploads_witness :
  (main env_replace_refused (sample_args 2) initial_world).2 = inr 1
  ∧ length (sent (main env_replace_refused (sample_args 2) initial_world).1) = 4%nat.
Proof.
  split; [|vm_compute; reflexivity].
  destruct (replace_failure_after_uploads env_replace_refused (sample_args 2)
              (take 3 (sent (main env_replace_refused (sample_args 2) initial_world).1)))
    as (_ & _ & Hexit).
  - vm_compute. reflexivity.
  - apply Hexit. vm_compute. split; [intros H; discriminate H|reflexivity].
Defined.

Lemma transform_product_accepts (E : env) (p : pyval) (w : world) :
  (∃ item, (transform_product E p w).2 = inr item) ↔ titled_record p.
Proof.
  unfold titled_record. destruct p as [| | | | | |d];
    try (split; [by intros [item ?]|by intros (d & t & ? & _)]).
  rewrite transform_product_run. unfold dict_subscript. simpl.
  destruct (dict_lookup "title" d) as [t|] eqn:Ht; simpl.
  - split; [intros _; by exists d, t|intros _; by eexists].
  - split; [by intros [item ?]|]. intros (d' & t & [= <-] & ?). congruence.
Qed.

Lemma mapM_transform_product_accepts (E : env) (items : list pyval) (w : world) :
  (∃ ts, (mapM (transform_product E) items w).2 = inr ts) ↔ Forall titled_record items.
Proof.
  revert w. induction items as [|p items IH]; intros w.
  - split; [constructor|]. intros _. by exists [].
  - rewrite mapM_cons, Forall_cons, <- (transform_product_accepts E p w), <- (IH (transform_product E p w).1).
    destruct (transform_product E p w) as [w1 [e|item]]; simpl.
    + split; [by intros [ts ?]|by intros [[item ?] _]].
    + destruct (mapM (transform_product E) items w1) as [w2 [e|rest]]; simpl.
      * split; [by intros [ts ?]|by intros [_ [ts ?]]].
      * split; [intros _; split; by eexists|intros _; by eexists].
Qed.

Lemma make_batches_zero (ts : list pyval) : ∃ e, make_batches ts 0 = inl e.
Proof. by eexists. Qed.

Lemma make_batches_nonzero (ts : list pyval) (size : Z) :
  size ≠ 0 → ∃ bs, make_batches ts size = inr bs.
Proof.
  intros Hsize. unfold make_batches, py_range.
  destruct (Z.eqb_spec size 0); [done|]. destruct (0 <? size); by eexists.
Qed.

Lemma make_batches_negative (ts : list pyval) (size : Z) :
  size < 0 → make_batches ts size = inr [].
Proof.
  intros Hsize. unfold make_batches, py_range.
  destruct (Z.eqb_spec size 0); [lia|]. destruct (Z.ltb_spec 0 size); [lia|].
  by replace (Z.to_nat (0 - Z.of_nat (length ts))) with 0%nat by lia.
Qed.

(** X5. An ingestion run sends a request if and only if the input file loads,
    its value is iterable, every record is a dict with a title, and the
    batch size is not 0; a run that sends nothing exits with status 1. *)
Theorem network_reached_iff (E : env) (a : args) :
  (sent (main E a initial_world).1 ≠ []
   ↔ ∃ v items, load_json E (arg_file a) = inr v ∧ py_iter v = inr items
                ∧ Forall titled_record items ∧ arg_batch_size a ≠ 0)
  ∧ (sent (main E a initial_world).1 = [] → (main E a initial_world).2 = inr 1).
Proof.
  split_run E a; simpl; rewrite ?Hsent; simpl.
  { split; [|done]. split; [done|]. by intros (v & its & Hv & _). }
  { split; [|done]. split; [done|]. intros (v & its & Hv & Hits & _).
    injection Hv as <-. congruence. }
  { split; [|done]. split; [done|]. intros (v & its & Hv & Hits & Htitled & _).
    injection Hv as <-. rewrite Hiter in Hits. injection Hits as <-.
    apply (mapM_transform_product_accepts E items initial_world) in Htitled as [ts Hts].
    by rewrite Hmap in Hts. }
  { split; [|done]. split; [done|]. intros (v & its & _ & _ & _ & Hsize).
    destruct (make_batches_nonzero ts _ Hsize) as [bs Hbs']. congruence. }
  all: split; [|done]; split; [|done]; intros _; exists products, items.
  all: assert (arg_batch_size a ≠ 0)
    by (intros Hz; rewrite Hz in Hbs; by destruct (make_batches_zero ts)).
  all: repeat split; try done.
  all: apply (mapM_transform_product_accepts E items initial_world); rewrite Hmap;
    by eexists.
Qed.

(** X6. With a negative batch size the run sends at most the creation request;
    if the upload phase ends, there is no batch, both counters are 0, and
    the run exits with status 0 without replacing the index. *)
Theorem negative_batch_size_uploads_nothing (E : env) (a : args) :
  arg_batch_size a < 0 →
  (sent (main E a initial_world).1 = []
   ∨ sent (main E a initial_world).1 = [create_request (client_of a) (arg_index a)])
  ∧ (∀ w1 u, upload E a initial_world = (w1, inr u) →
             batches u = [] ∧ success_count u = 0 ∧ error_count u = 0
             ∧ (main E a initial_world).2 = inr 0).
Proof.
  intros Hsize. split_run E a; simpl; rewrite ?Hsent; simpl.
  1-4: split; [by left|done].
  all: rewrite (make_batches_negative ts _ Hsize) in Hbs; injection Hbs as <-.
  1-2: split; [by right|done].
  all: simpl in Htally; try done.
  all: injection Htally as <- <- <-; try done.
  split; [by right|]. by intros w1 u [= <- <-].
Qed.

Lemma negative_batch_size_uploads_nothing_witness :
  sent (main env_echo (sample_args (-2)) initial_world).1
  = [create_request (client_of (sample_args (-2))) "product"]
  ∧ (main env_echo (sample_args (-2)) initial_world).2 = inr 0.
Proof.
  destruct (negative_batch_size_uploads_nothing env_echo (sample_args (-2)))
    as [[Hlog|Hlog] Hrun]; [simpl; lia| |].
  - vm_compute in Hlog. discriminate.
  - split; [exact Hlog|].
    destruct (upload env_echo (sample_args (-2)) initial_world) as [w1 [e|u]] eqn:Hup;
      [vm_compute in Hup; discriminate|].
    by destruct (Hrun w1 u eq_refl) as (_ & _ & _ & ?).
Defined.

(** X7. With a worker count of 0 or less the run exits with status 1 (the thread
    pool refuses it) after sending at most the creation request: the
    temporary index may already exist, and no batch is uploaded. *)
Theorem nonpositive_workers_is_fatal (E : env) (a : args) :
  arg_workers a ≤ 0 →
  (main E a initial_world).2 = inr 1
  ∧ (sent (main E a initial_world).1 = []
     ∨ sent (main E a initial_world).1 = [create_request (client_of a) (arg_index a)]).
Proof.
  intros Hworkers'. split_run E a; simpl; rewrite ?Hsent; simpl; auto.
  all: apply Z.leb_gt in Hworkers; lia.
Qed.

Lemma nonpositive_workers_is_fatal_witness :
  (main env_echo (workers_args 0) initial_world).2 = inr 1
  ∧ sent (main env_echo (workers_args 0) initial_world).1
    = [create_request (client_of (workers_args 0)) "product"].
Proof.
  destruct (nonpositive_workers_is_fatal env_echo (workers_args 0)) as [Hexit [Hlog|Hlog]];
    [simpl; lia| |].
  - vm_compute in Hlog. discriminate.
  - split; [exact Hexit|exact Hlog].
Defined.

(** *** The aggregation loop and the completion order *)

Lemma tally_countable acc r :
  (∃ acc', tally acc r = inr acc') ↔ countable r = true.
Proof.
  unfold countable, tally. destruct acc as [[s e] errs].
  destruct (py_subscript r "success") as [|ok]; simpl; [split; [by intros [? ?]|done]|].
  destruct (truthy ok).
  - destruct (py_subscript r "data") as [|data]; simpl; [split; [by intros [? ?]|done]|].
    destruct (py_len data); simpl; [split; [by intros [? ?]|done]|].
    split; [done|by eexists].
  - destruct (py_subscript r "products") as [|ps]; simpl; [split; [by intros [? ?]|done]|].
    destruct (py_len ps); simpl; [split; [by intros [? ?]|done]|].
    split; [done|by eexists].
Qed.

Lemma foldM_tally_countable acc rs :
  (∃ acc', foldM tally acc rs = inr acc') ↔ Forall (λ r, countable r = true) rs.
Proof.
  revert acc. induction rs as [|r rs IH]; intros acc.
  - split; [constructor|]. by eexists.
  - rewrite foldM_cons, Forall_cons, <- (tally_countable acc r).
    destruct (tally acc r) as [e|acc1]; simpl.
    + split; [by intros [? ?]|by intros [[? ?] _]].
    + rewrite <- (IH acc1). split; [intros H; split; [by eexists|done]|by intros [_ ?]].
Qed.

Lemma result_of_countable b (r : exn + pyval) :
  countable (result_of b r) = true
  ↔ match r with inr data => ∃ n, py_len data = inr n | inl _ => True end.
Proof.
  destruct r as [e|data]; [done|].
  unfold countable. simpl. destruct (py_len data); simpl.
  - split; [done|by intros [? ?]].
  - split; [by eexists|done].
Qed.

Lemma upload_results_lookup E self index_name log bs1 b bs2 :
  result_of b (attempt E (log ++ map (upload_request self index_name) bs1)
                 (upload_request self index_name b))
  ∈ upload_results E self index_name log (bs1 ++ b :: bs2).
Proof.
  revert log. induction bs1 as [|b1 bs1 IH]; intros log; simpl.
  - rewrite app_nil_r. constructor.
  - constructor. specialize (IH (log ++ [upload_request self index_name b1])).
    by rewrite <- app_assoc in IH.
Qed.

(** Two completion orders give the same counters, or both make the loop
    raise. *)
Lemma foldM_tally_perm (rs rs' : list pyval) :
  rs ≡ₚ rs' →
  match foldM tally (0, 0, []) rs, foldM tally (0, 0, []) rs' with
  | inr (s, e, errs), inr (s', e', errs') => s = s' ∧ e = e' ∧ errs ≡ₚ errs'
  | inl _, inl _ => True
  | _, _ => False
  end.
Proof.
  intros Hperm.
  pose proof (foldM_tally_countable (0, 0, []) rs) as Hrs.
  pose proof (foldM_tally_countable (0, 0, []) rs') as Hrs'.
  rewrite <- Hperm in Hrs'.
  destruct (foldM tally (0, 0, []) rs) as [e|[[s er] errs]] eqn:H1;
    destruct (foldM tally (0, 0, []) rs') as [e'|[[s' er'] errs']] eqn:H2.
  - done.
  - destruct Hrs as [_ Hrs]. destruct Hrs as [? ?]; [|done]. apply Hrs'. by eexists.
  - destruct Hrs' as [_ Hrs']. destruct Hrs' as [? ?]; [|done]. apply Hrs. by eexists.
  - apply tally_sums in H1 as (-> & -> & ->). apply tally_sums in H2 as (-> & -> & ->).
    rewrite (sumZ_perm _ _ (fmap_Permutation returned_items _ _ Hperm)).
    rewrite (sumZ_perm _ _ (fmap_Permutation failed_items _ _ Hperm)).
    repeat split. simpl. by apply filter_Permutation.
Qed.

Lemma failed_items_sum (bs : list (list pyval)) (rs : list pyval) :
  Forall2 batch_result bs rs →
  Forall (λ r, succeeded r = false) rs →
  sumZ (returned_items <$> rs) = 0
  ∧ sumZ (failed_items <$> rs) = Z.of_nat (length (concat bs)).
Proof.
  induction 1 as [|b r bs rs Hbr _ IH]; [done|].
  intros [Hr Hrs]%Forall_cons. destruct (IH Hrs) as [IHs IHe].
  rewrite !fmap_cons, !sumZ_cons, IHs, IHe, concat_cons, length_app, Nat2Z.inj_add.
  rewrite (batch_result_failed_items b r Hbr Hr).
  rewrite (batch_result_returned_items b r Hbr Hr). lia.
Qed.

(** X8. If every batch fails, the run still exits with status 0: no replace
    request is sent, success_count is 0, the error details are the results
    of all batches, and with a positive batch size error_count is the number
    of transformed products. *)
Theorem failed_batches_do_not_abort (E : env) (a : args) (w1 : world) (u : uploaded) :
  upload E a initial_world = (w1, inr u) →
  Forall (λ r, succeeded r = false) (futures u) →
  (main E a initial_world).2 = inr 0
  ∧ sent (main E a initial_world).1 = sent w1
  ∧ success_count u = 0
  ∧ error_batches u ≡ₚ futures u
  ∧ (0 < arg_batch_size a →
     error_count u = Z.of_nat (length (transformed_products u))).
Proof.
  intros Hup Hfailed. pose proof (upload_inv E a _ _ _ Hup) as (Hbs & _ & Hres & Htally).
  apply tally_sums in Htally as (Hs & He & Herrs). simpl in Hs, He, Herrs.
  rewrite (sumZ_perm _ _ (fmap_Permutation returned_items _ _ (as_completed_perm E _)))
    in Hs.
  rewrite (sumZ_perm _ _ (fmap_Permutation failed_items _ _ (as_completed_perm E _)))
    in He.
  destruct (failed_items_sum _ _ Hres Hfailed) as [Hzero Hsum].
  rewrite Hzero in Hs. rewrite Hsum in He.
  rewrite (main_eq E a), Hup, Hs. simpl.
  repeat split; try done.
  - rewrite Herrs, (filter_Permutation _ _ _ (as_completed_perm E _)).
    clear -Hfailed. induction Hfailed as [|r rs Hr _ IH]; [done|].
    rewrite filter_cons_True by done. by rewrite IH.
  - intros Hsize. by rewrite He, (make_batches_concat _ _ _ Hsize Hbs).
Qed.

Lemma failed_batches_do_not_abort_witness :
  (main env_down (sample_args 2) initial_world).2 = inr 0
  ∧ length (sent (main env_down (sample_args 2) initial_world).1) = 3%nat.
Proof.
  split; [|vm_compute; reflexivity].
  destruct (upload env_down (sample_args 2) initial_world) as [w1 [e|u]] eqn:Hup;
    [vm_compute in Hup; discriminate|].
  apply (failed_batches_do_not_abort env_down (sample_args 2) w1 u Hup).
  vm_compute in Hup. injection Hup as <- <-. by repeat constructor.
Defined.

(** X9. If an upload is answered successfully with a JSON value that has no
    length (a number, true, null), the run exits with status 1 and the index
    is never replaced, although the batch was accepted. *)
Theorem unsized_payload_is_fatal (E : env) (a : args) (log rest : list http_request)
    (rq : http_request) (status : Z) (reason : string) (data : pyval) (e : exn) :
  sent (main E a initial_world).1 = log ++ rq :: rest →
  req_json rq ≠ None →
  remote E log rq = Responds status reason (Some data) →
  ¬ (400 ≤ status < 600) →
  py_len data = inl e →
  (main E a initial_world).2 = inr 1
  ∧ ¬ replace_invoked a (sent (main E a initial_world).1).
Proof.
  intros Hlog Hjson Hremote Hstatus Hlen.
  assert (Hattempt : attempt E log rq = inr data).
  { unfold attempt, receive. rewrite Hremote. simpl.
    assert (checked E log rq = inr ()) as Hok by (apply checked_accepted; by rewrite Hremote).
    unfold checked, receive in Hok. rewrite Hremote in Hok. simpl in Hok.
    by destruct (raise_for_status _) as [|[]]. }
  rewrite replace_invoked_iff. revert Hlog. rewrite (main_eq E a), (upload_eq E a).
  destruct (load_json E (arg_file a)) as [?e|?products]; [by split; [|intros (?&?&[=]&_)]|].
  destruct (py_iter _) as [?e|?items]; [by split; [|intros (?&?&[=]&_)]|].
  destruct (mapM (transform_product E) _ initial_world) as [?w2 [?e|?ts]] eqn:Hmap;
    [by split; [|intros (?&?&[=]&_)]|]. apply transformed_sent in Hmap.
  destruct (make_batches _ (arg_batch_size a)) as [?e|?bs]; [by split; [|intros (?&?&[=]&_)]|].
  cbv zeta. rewrite Hmap, !app_nil_l.
  destruct (checked E _ (create_request _ _)) as [?e|[]];
    [by split; [|intros (?&?&[=]&_)]|].
  destruct (arg_workers a <=? 0); [by split; [|intros (?&?&[=]&_)]|].
  set (self := client_of a). set (temp := arg_index a +:+ "_temp").
  assert (Hbad : ∀ bs1 b bs2, bs = bs1 ++ b :: bs2 →
            log = create_request self (arg_index a) :: map (upload_request self temp) bs1 →
            rq = upload_request self temp b →
            ∃ e', foldM tally (0, 0, [])
                    (as_completed E (upload_results E self temp
                                       [create_request self (arg_index a)] bs))
                  = inl e').
  { intros bs1 b bs2 -> -> ->.
    destruct (foldM tally _ _) as [e'|acc] eqn:Htally; [by eexists|].
    assert (Hall : Forall (λ r, countable r = true)
                     (upload_results E self temp [create_request self (arg_index a)]
                        (bs1 ++ b :: bs2))).
    { rewrite <- (as_completed_perm E).
      apply (proj1 (foldM_tally_countable (0, 0, []) _)). by eexists. }
    rewrite Forall_forall in Hall.
    pose proof (Hall _ (upload_results_lookup E self temp _ bs1 b bs2)) as Hcount.
    simpl in Hcount. rewrite Hattempt in Hcount.
    apply result_of_countable in Hcount as [n Hn]. congruence. }
  assert (Hsplit : ∀ tail, (tail = [] ∨ tail = [replace_request a]) →
            [create_request self (arg_index a)]
              ++ map (upload_request self temp) bs ++ tail = log ++ rq :: rest →
            ∃ bs1 b bs2, bs = bs1 ++ b :: bs2
              ∧ log = create_request self (arg_index a) :: map (upload_request self temp) bs1
              ∧ rq = upload_request self temp b).
  { intros tail Htail Heq. simpl in Heq.
    destruct log as [|rq0 log]; simpl in Heq.
    { injection Heq as <- _. done. }
    injection Heq as <- Heq.
    assert (Hin : ∃ k, map (upload_request self temp) bs = log ++ rq :: k).
    { destruct Htail as [->| ->].
      - rewrite app_nil_r in Heq. eauto.
      - destruct rest as [|r rest _] using rev_ind.
        + change (log ++ [rq]) with (log ++ [rq]) in Heq.
          apply app_inj_tail in Heq as [_ <-]. done.
        + rewrite app_comm_cons, app_assoc in Heq.
          apply app_inj_tail in Heq as [Heq _]. eauto. }
    destruct Hin as [k Hk].
    apply fmap_app_inv in Hk as (bs1 & bs' & -> & Hk & ->). symmetry in Hk.
    apply fmap_cons_inv in Hk as (b & bs2 & -> & _ & ->).
    by exists bs1, b, bs2. }
  destruct (foldM tally _ _) as [?e|[[?s ?er] ?errs]] eqn:Htally.
  - intros _. by split; [|intros (?&?&[=]&_)].
  - simpl success_count. destruct (0 <? s); simpl; intros Heq.
    + destruct (Hsplit [replace_request a]) as (bs1 & b & bs2 & ? & ? & ?);
        [by right|done|].
      destruct (Hbad bs1 b bs2 ltac:(done) ltac:(done) ltac:(done)) as [e' He'].
      congruence.
    + destruct (Hsplit []) as (bs1 & b & bs2 & ? & ? & ?);
        [by left|by rewrite app_nil_r|].
      destruct (Hbad bs1 b bs2 ltac:(done) ltac:(done) ltac:(done)) as [e' He'].
      congruence.
Qed.

Lemma unsized_payload_is_fatal_witness :
  (main env_flaky (sample_args 2) initial_world).2 = inr 1
  ∧ ¬ replace_invoked (sample_args 2)
        (sent (main env_flaky (sample_args 2) initial_world).1).
Proof.
  set (log := sent (main env_flaky (sample_args 2) initial_world).1).
  apply (unsized_payload_is_fatal env_flaky (sample_args 2) (take 2 log) []
           (default (replace_request (sample_args 2)) (log !! 2%nat))
           200 "OK" (PInt 1) (TypeError "object of type 'int' has no len()")).
  - vm_compute. reflexivity.
  - vm_compute. discriminate.
  - vm_compute. reflexivity.
  - lia.
  - reflexivity.
Defined.

Lemma upload_results_with_completion E picks self index_name log bs :
  upload_results (with_completion E picks) self index_name log bs
  = upload_results E self index_name log bs.
Proof.
  revert log. induction bs as [|b bs IH]; intros log; [done|].
  simpl. by rewrite IH.
Qed.

(** X10. The order in which the batch futures complete changes neither the exit
    status, nor the requests sent, nor the counters; the error details are
    the same up to order. *)
Theorem completion_order_is_irrelevant (E : env) (picks : list nat) (a : args) :
  let E' := with_completion E picks in
  (main E' a initial_world).2 = (main E a initial_world).2
  ∧ sent (main E' a initial_world).1 = sent (main E a initial_world).1
  ∧ match (upload E a initial_world).2, (upload E' a initial_world).2 with
    | inr u, inr u' =>
        futures u' = futures u
        ∧ success_count u' = success_count u
        ∧ error_count u' = error_count u
        ∧ error_batches u' ≡ₚ error_batches u
    | inl _, inl _ => True
    | _, _ => False
    end.
Proof.
  simpl. rewrite !main_eq, !upload_eq.
  change (load_json (with_completion E picks)) with (load_json E).
  change (transform_product (with_completion E picks)) with (transform_product E).
  change (checked (with_completion E picks)) with (checked E).
  destruct (load_json E (arg_file a)) as [?e|?products]; [done|].
  destruct (py_iter _) as [?e|?items]; [done|].
  destruct (mapM (transform_product E) _ initial_world) as [?w2 [?e|?ts]]; [done|].
  destruct (make_batches _ (arg_batch_size a)) as [?e|?bs]; [done|].
  cbv zeta. destruct (checked E _ (create_request _ _)) as [?e|[]]; [done|].
  destruct (arg_workers a <=? 0); [done|].
  rewrite upload_results_with_completion.
  set (fs := upload_results E _ _ _ bs).
  assert (Hperm : as_completed E fs ≡ₚ as_completed (with_completion E picks) fs)
    by by rewrite !as_completed_perm.
  apply foldM_tally_perm in Hperm.
  destruct (foldM tally (0, 0, []) (as_completed E fs)) as [?e|[[s er] errs]];
    destruct (foldM tally (0, 0, []) (as_completed (with_completion E picks) fs))
      as [?e|[[s' er'] errs']]; try done.
  destruct Hperm as (<- & <- & Herrs). simpl.
  by destruct (0 <? s).
Qed.

Lemma failed_items_filter (rs : list pyval) :
  sumZ (failed_items <$> rs)
  = sumZ (count_of "products" <$> filter (λ r, succeeded r = false) rs).
Proof.
  induction rs as [|r rs IH]; [done|].
  rewrite fmap_cons, sumZ_cons, IH. unfold failed_items.
  destruct (succeeded r) eqn:Hr.
  - by rewrite filter_cons_False by congruence.
  - by rewrite filter_cons_True, fmap_cons, sumZ_cons by done.
Qed.

(** X11. After the upload phase the error details are, up to order, exactly the
    results of the failed batches; error_count is the sum of their product
    counts, and each detail carries an error message and the products of one
    of the batches. *)
Theorem error_details_are_the_failed_batches (E : env) (a : args) (w w1 : world)
    (u : uploaded) :
  upload E a w = (w1, inr u) →
  error_batches u ≡ₚ filter (λ r, succeeded r = false) (futures u)
  ∧ error_count u = sumZ (count_of "products" <$> error_batches u)
  ∧ ∀ r, r ∈ error_batches u →
         ∃ b msg, b ∈ batches u
                  ∧ r = PDict [("success", PBool false); ("error", PStr msg);
                               ("products", PList b)].
Proof.
  intros (_ & _ & Hres & Htally)%upload_inv.
  apply tally_sums in Htally as (_ & He & Herrs). simpl in He, Herrs.
  assert (Hperm : error_batches u ≡ₚ filter (λ r, succeeded r = false) (futures u)).
  { rewrite Herrs. apply filter_Permutation, as_completed_perm. }
  split; [done|]. split.
  - by rewrite He, Herrs, failed_items_filter.
  - intros r Hr. rewrite Hperm in Hr. apply list_elem_of_filter in Hr as [Hfail Hin].
    apply list_elem_of_lookup in Hin as [i Hi].
    destruct (Forall2_lookup_r _ _ _ _ _ Hres Hi) as (b & Hb & Hbr).
    destruct Hbr as [data|msg]; [done|].
    exists b, msg. split; [|done]. by eapply list_elem_of_lookup_2.
Qed.

Lemma error_details_are_the_failed_batches_witness :
  ∃ w1 u, upload env_echo (sample_args 2) initial_world = (w1, inr u)
          ∧ length (error_batches u) = 1%nat ∧ error_count u = 2.
Proof.
  destruct (upload env_echo (sample_args 2) initial_world) as [w1 [e|u]] eqn:Hup;
    [vm_compute in Hup; discriminate|].
  exists w1, u. split; [reflexivity|].
  destruct (error_details_are_the_failed_batches env_echo (sample_args 2)
              initial_world w1 u Hup) as (Hperm & Hcount & _).
  vm_compute in Hup. injection Hup as <- <-. split; reflexivity.
Defined.

(** X12. For a record that has a platform_id the transformed item does not
    depend on the clock or on anything else of the surroundings; the clock
    is nevertheless read once, since the default of dict.get is evaluated
    before the lookup. *)
Theorem transform_product_ignores_clock_with_id (E E' : env) (w w' : world)
    (product : list (string * pyval)) (id : pyval) :
  dict_lookup "platform_id" product = Some id →
  (transform_product E (PDict product) w).2 = (transform_product E' (PDict product) w').2
  ∧ clock_reads (transform_product E (PDict product) w).1 = S (clock_reads w).
Proof.
  intros Hid. rewrite !transform_product_run. simpl.
  unfold dict_get. by rewrite Hid.
Qed.

Lemma transform_product_ignores_clock_with_id_witness :
  (transform_product env_echo
     (PDict [("platform_id", PStr "sku-1"); ("title", PStr "shoe")]) initial_world).2
  = (transform_product env_down
       (PDict [("platform_id", PStr "sku-1"); ("title", PStr "shoe")]) initial_world).2.
Proof.
  by apply (transform_product_ignores_clock_with_id env_echo env_down initial_world
              initial_world [("platform_id", PStr "sku-1"); ("title", PStr "shoe")]
              (PStr "sku-1")).
Defined.

End IngestionRuns.

(** ** Further facts about the search client *)
Module SearchCasesFacts.
Import Py Search SearchFacts SearchCases.

Lemma indexed_loop_cons name (params : gmap string pyval) i e entries :
  indexed_loop name params ((i, e) :: entries)
  = match dict_method "items" e with
    | inr items =>
        indexed_loop name
          (foldl (λ (params : gmap string pyval) '(key, value),
                    <[name i key := value]> params) params items) entries
    | inl err => inl err
    end.
Proof. by destruct e. Qed.

Lemma indexed_loop_accepts name params entries :
  (∃ params', indexed_loop name params entries = inr params')
  ↔ Forall (λ ie : nat * pyval, is_dict ie.2) entries.
Proof.
  revert params. induction entries as [|[i e] entries IH]; intros params.
  - split; [constructor|]. by eexists.
  - rewrite Forall_cons, indexed_loop_cons.
    destruct e as [| | | | | |d]; simpl;
      try (split; [by intros [? ?]|by intros [[? ?] _]]).
    rewrite IH. split; [|by intros [_ ?]].
    intros H. split; [by exists d|done].
Qed.

Lemma Forall_is_dict (l : list pyval) :
  Forall is_dict l ↔ ∃ ds, l = PDict <$> ds.
Proof.
  induction l as [|v l IH].
  - split; [by exists []|constructor].
  - rewrite Forall_cons, IH. split.
    + intros [[d ->] [ds ->]]. by exists (d :: ds).
    + intros [[|d ds] Hds]; [done|]. injection Hds as -> ->. split; [by exists d|by exists ds].
Qed.

Lemma Forall_enumerate {A} (P : A → Prop) (l : list A) :
  Forall (λ ie : nat * A, P ie.2) (enumerate l) ↔ Forall P l.
Proof.
  unfold enumerate. generalize 0%nat. induction l as [|x l IH]; intros i; simpl.
  - split; constructor.
  - rewrite !Forall_cons, IH. done.
Qed.

Lemma indexed_stage_accepts name entries params :
  (∃ params', indexed_stage name entries params = inr params') ↔ entries_ok entries.
Proof.
  unfold indexed_stage, entries_ok.
  destruct (truthy entries) eqn:Htruthy.
  - destruct entries as [| | | |s|l|d]; simpl in *; try done;
      try (split; [by intros [? ?]|intros [|[ds ?]]; done]).
    + destruct s as [|c s]; [done|].
      change (inr (chars (String c s)) ≫= ?f) with (f (chars (String c s))). cbv beta.
      rewrite indexed_loop_accepts, Forall_enumerate. simpl.
      split; [|by intros [|[? ?]]]. by intros [[? ?] _]%Forall_cons.
    + change (inr l ≫= ?f) with (f l). cbv beta.
      rewrite indexed_loop_accepts, Forall_enumerate, Forall_is_dict.
      split; [intros [ds ->]; right; by exists ds|].
      intros [|[ds [= ->]]]; [done|]. by exists ds.
    + destruct d as [|[k v] d]; [done|].
      change (inr ?l ≫= ?f) with (f l). cbv beta.
      rewrite indexed_loop_accepts, Forall_enumerate. simpl.
      split; [|by intros [|[? ?]]]. by intros [[? ?] _]%Forall_cons.
  - split; [by left|]. by eexists.
Qed.

Lemma filter_stage_accepts filters params :
  (∃ params', filter_stage filters params = inr params') ↔ filters_ok filters.
Proof.
  unfold filters_ok. split.
  - intros [params' [[? _]|(fs & ? & _)]%filter_stage_inv]; [by left|right; by exists fs].
  - intros [Hfalsy|[fs ->]].
    + unfold filter_stage. rewrite Hfalsy. by eexists.
    + rewrite filter_stage_dict. by eexists.
Qed.

Lemma search_params_accepts sid query page rpp indices filters sort facets query_name :
  (∃ params,
     search_params sid query page rpp indices filters sort facets query_name = inr params)
  ↔ filters_ok filters ∧ entries_ok sort ∧ entries_ok facets.
Proof.
  rewrite search_params_stages.
  rewrite <- (filter_stage_accepts filters (search_base sid query page rpp indices)).
  destruct (filter_stage _ _) as [e|p1]; simpl.
  { split; [by intros [? ?]|by intros [[? ?] _]]. }
  rewrite <- (indexed_stage_accepts sort_name sort p1).
  destruct (indexed_stage sort_name sort p1) as [e|p2]; simpl.
  { split; [by intros [? ?]|by intros (_ & [? ?] & _)]. }
  rewrite <- (indexed_stage_accepts facet_name facets p2).
  destruct (indexed_stage facet_name facets p2) as [e|p3]; simpl.
  { split; [by intros [? ?]|by intros (_ & _ & [? ?])]. }
  split; [intros _; repeat split; by eexists|intros _; by eexists].
Qed.

(** A call, unfolded: one identifier is drawn, then the parameters are
    built, then one request is sent. *)
Lemma perform_eq (E : env) (self : DoofinderSearch) (c : api_call) (w : world) :
  perform E self c w
  = match params_of (uuid4_str E (uuid_draws w)) c with
    | inl e => ({| uuid_draws := S (uuid_draws w); sent := sent w |}, inl e)
    | inr params =>
        ({| uuid_draws := S (uuid_draws w);
            sent := sent w ++ [get_request self (endpoint c) params] |},
         answer E (sent w) (get_request self (endpoint c) params))
    end.
Proof.
  destruct c; simpl.
  - unfold search. unfold mbind at 1, M_bind, uuid4. unfold mbind at 1, lift at 1.
    destruct (search_params _ _ _ _ _ _ _ _ _) as [e|params]; simpl; [done|].
    unfold mbind, M_bind, requests_get, lift, answer. simpl.
    fold (get_request self "/_search" params).
    destruct (receive _ _) as [e|response]; simpl; [done|].
    by destruct (raise_for_status response) as [e|[]].
  - unfold suggest. unfold mbind, M_bind, uuid4, requests_get, lift, answer. simpl.
    fold (get_request self "/_suggest" (suggest_params (uuid4_str E (uuid_draws w)) query indices)).
    destruct (receive _ _) as [e|response]; simpl; [done|].
    by destruct (raise_for_status response) as [e|[]].
  - unfold similar_products. unfold mbind at 1, M_bind, uuid4. unfold mbind at 1, lift at 1.
    destruct (similar_products_params _ _ _ _ _) as [e|params]; simpl; [done|].
    unfold mbind, M_bind, requests_get, lift, answer. simpl.
    fold (get_request self "/_visually_similar" params).
    destruct (receive _ _) as [e|response]; simpl; [done|].
    by destruct (raise_for_status response) as [e|[]].
Qed.

(** X13. search sends its request if and only if filters is falsy or a dict, and
    sort and facets are each falsy or a list of dicts; otherwise it raises
    before anything is sent, after having drawn its session identifier. *)
Theorem search_accepts_iff (E : env) (self : DoofinderSearch) (query : string)
    (page rpp : Z) (indices filters sort facets query_name : pyval) (w : world) :
  let run := search E self query page rpp indices filters sort facets query_name w in
  ((∃ rq, sent run.1 = sent w ++ [rq])
   ↔ filters_ok filters ∧ entries_ok sort ∧ entries_ok facets)
  ∧ (¬ (filters_ok filters ∧ entries_ok sort ∧ entries_ok facets) →
     sent run.1 = sent w ∧ uuid_draws run.1 = S (uuid_draws w) ∧ ∃ e, run.2 = inl e).
Proof.
  simpl. rewrite <- (search_params_accepts (uuid4_str E (uuid_draws w)) query page rpp
                      indices filters sort facets query_name).
  change (search E self query page rpp indices filters sort facets query_name w)
    with (perform E self (CallSearch query page rpp indices filters sort facets query_name) w).
  rewrite perform_eq. simpl.
  destruct (search_params _ _ _ _ _ _ _ _ _) as [e|params]; simpl.
  - split.
    + split; [|by intros [? ?]]. intros [rq Hrq].
      apply (f_equal length) in Hrq. rewrite length_app in Hrq. simpl in Hrq. lia.
    + intros _. repeat split. by eexists.
  - split.
    + split; intros _; by eexists.
    + intros H. destruct H. by eexists.
Qed.

Lemma search_accepts_iff_witness :
  sent (search env_counting sample_client "shoes" 1 20 PNone PNone
          (PDict [("price", PStr "asc")]) PNone PNone initial_world).1 = []
  ∧ (search env_counting sample_client "shoes" 1 20 PNone PNone
       (PDict [("price", PStr "asc")]) PNone PNone initial_world).2
    = inl (AttributeError "'str' object has no attribute 'items'").
Proof.
  destruct (search_accepts_iff env_counting sample_client "shoes" 1 20 PNone PNone
              (PDict [("price", PStr "asc")]) PNone PNone initial_world)
    as [_ Hfail].
  destruct Hfail as (Hsent & _ & _).
  - intros (_ & [Hfalsy|[ds Hds]] & _); discriminate.
  - split; [exact Hsent|]. vm_compute. reflexivity.
Defined.

Lemma answer_ok (E : env) log rq v :
  answer E log rq = inr v
  ↔ ∃ status reason, remote E log rq = Responds status reason (Some v)
                     ∧ ¬ (400 ≤ status < 600).
Proof.
  unfold answer, receive, raise_for_status, response_json.
  destruct (remote E log rq) as [m|st rs body]; simpl.
  { split; [done|]. by intros (? & ? & ? & _). }
  destruct ((400 <=? st) && (st <? 500)) eqn:H4; simpl.
  { apply andb_prop in H4 as [?%Z.leb_le ?%Z.ltb_lt].
    split; [done|]. intros (? & ? & [= <- _ _] & ?). lia. }
  destruct ((500 <=? st) && (st <? 600)) eqn:H5; simpl.
  { apply andb_prop in H5 as [?%Z.leb_le ?%Z.ltb_lt].
    split; [done|]. intros (? & ? & [= <- _ _] & ?). lia. }
  assert (¬ (400 ≤ st < 600)).
  { apply andb_false_iff in H4 as [?%Z.leb_gt|?%Z.ltb_ge];
      apply andb_false_iff in H5 as [?%Z.leb_gt|?%Z.ltb_ge]; lia. }
  destruct body as [v'|]; simpl.
  - split; [intros [= <-]; by exists st, rs|]. by intros (? & ? & [= _ _ <-] & _).
  - split; [done|]. by intros (? & ? & [=] & _).
Qed.

(** X14. Each of search, suggest and similar_products sends at most one request,
    a GET to its own endpoint under the client's base URL, and returns a
    value exactly when that request was sent and answered with a JSON body
    and a status outside 400..599; the value returned is that body. *)
Theorem perform_sends_one_get (E : env) (self : DoofinderSearch) (c : api_call)
    (w : world) :
  let run := perform E self c w in
  (sent run.1 = sent w
   ∨ ∃ params, sent run.1 = sent w ++ [get_request self (endpoint c) params])
  ∧ (∀ v, run.2 = inr v
          ↔ ∃ params status reason,
              sent run.1 = sent w ++ [get_request self (endpoint c) params]
              ∧ remote E (sent w) (get_request self (endpoint c) params)
                = Responds status reason (Some v)
              ∧ ¬ (400 ≤ status < 600)).
Proof.
  simpl. rewrite perform_eq.
  destruct (params_of _ c) as [e|params]; simpl.
  - split; [by left|]. intros v. split; [done|].
    intros (params & ? & ? & Hlog & _).
    apply (f_equal length) in Hlog. rewrite length_app in Hlog. simpl in Hlog. lia.
  - split; [right; by exists params|]. intros v. rewrite answer_ok. split.
    + intros (st & rs & ? & ?). by exists params, st, rs.
    + intros (params' & st & rs & [_ [= <-]]%app_inj_tail & ? & ?). by exists st, rs.
Qed.

(** *** Names the optional blocks cannot touch *)

Lemma not_family_name k :
  is_filter_name k = false → is_sort_name k = false → is_facet_name k = false →
  (∀ fs, k ∉ (flatten_filters fs).*1)
  ∧ (∀ i key, k ≠ sort_name i key) ∧ (∀ i key, k ≠ facet_name i key).
Proof.
  intros Hf Hs Hfa. split; [|split].
  - intros fs ([k' v] & -> & Hin%flatten_filters_names)%list_elem_of_fmap.
    simpl in *. congruence.
  - intros i key ->. by change (true = false) in Hs.
  - intros i key ->. by change (true = false) in Hfa.
Qed.

Lemma filter_stage_frame filters (params params' : gmap string pyval) k :
  is_filter_name k = false →
  filter_stage filters params = inr params' →
  params' !! k = params !! k.
Proof.
  intros Hk [[_ ->]|(fs & -> & ->)]%filter_stage_inv; [done|].
  apply lookup_apply_all_notin.
  intros ([k' v] & -> & Hin%flatten_filters_names)%list_elem_of_fmap.
  simpl in *. congruence.
Qed.

Lemma search_params_frame sid query page rpp indices filters sort facets query_name
    params k :
  search_params sid query page rpp indices filters sort facets query_name = inr params →
  is_filter_name k = false → is_sort_name k = false → is_facet_name k = false →
  k ≠ "query_name" →
  params !! k = search_base sid query page rpp indices !! k.
Proof.
  intros (p1 & p2 & p3 & Hp1 & Hp2 & Hp3 & ->)%search_params_inv Hf Hs Hfa Hqn.
  destruct (not_family_name k Hf Hs Hfa) as (_ & Hsort & Hfacet).
  rewrite <- (filter_stage_frame _ _ _ k Hf Hp1).
  rewrite <- (indexed_stage_frame _ _ _ _ k Hsort Hp2).
  rewrite <- (indexed_stage_frame _ _ _ _ k Hfacet Hp3).
  destruct (truthy query_name); [|done]. by rewrite lookup_insert_ne.
Qed.

(** X15. Whatever the filters, sort and facets are, the parameters search builds
    keep query, page, rpp and session_id as given; indices[] and query_name
    are present exactly when their arguments are truthy, with the argument
    as value. No filter, sort or facet entry can overwrite them. *)
Theorem search_core_parameters_kept (sid query : string) (page rpp : Z)
    (indices filters sort facets query_name : pyval) (params : gmap string pyval) :
  search_params sid query page rpp indices filters sort facets query_name = inr params →
  params !! "query" = Some (PStr query)
  ∧ params !! "page" = Some (PInt page)
  ∧ params !! "rpp" = Some (PInt rpp)
  ∧ params !! "session_id" = Some (PStr sid)
  ∧ params !! "indices[]" = (if truthy indices then Some indices else None)
  ∧ params !! "query_name" = (if truthy query_name then Some query_name else None).
Proof.
  intros Hrun.
  rewrite !(search_params_frame _ _ _ _ _ _ _ _ _ _ _ Hrun) by done.
  unfold search_base. repeat split.
  1-5: by destruct (truthy indices).
  apply search_params_inv in Hrun as (p1 & p2 & p3 & Hp1 & Hp2 & Hp3 & ->).
  destruct (truthy query_name); [by rewrite lookup_insert_eq|].
  destruct (not_family_name "query_name" eq_refl eq_refl eq_refl) as (_ & Hsort & Hfacet).
  rewrite (indexed_stage_frame _ _ _ _ _ Hfacet Hp3).
  rewrite (indexed_stage_frame _ _ _ _ _ Hsort Hp2).
  rewrite (filter_stage_frame _ _ _ "query_name" eq_refl Hp1).
  unfold search_base. by destruct (truthy indices).
Qed.

Lemma search_core_parameters_kept_witness :
  search_params "6f1c7a52" "shoes" 2 10 (PList [PStr "product"])
    (PDict [("query", PStr "boots"); ("page", PInt 7)]) PNone PNone PNone
  = inr sample_shadowed
  ∧ sample_shadowed !! "query" = Some (PStr "shoes")
  ∧ sample_shadowed !! "page" = Some (PInt 2).
Proof.
  split; [reflexivity|].
  destruct (search_core_parameters_kept "6f1c7a52" "shoes" 2 10 (PList [PStr "product"])
              (PDict [("query", PStr "boots"); ("page", PInt 7)]) PNone PNone PNone
              sample_shadowed eq_refl) as (Hq & Hp & _).
  split; [exact Hq|exact Hp].
Defined.

(** X16. The parameters similar_products builds keep dfid, rpp, exclude_self and
    session_id as given whatever the filters are, and every other parameter
    has a name that starts with 'filter['. *)
Theorem similar_core_parameters_kept (sid product_id : string) (rpp : Z)
    (exclude_self : bool) (filters : pyval) (params : gmap string pyval) :
  similar_products_params sid product_id rpp exclude_self filters = inr params →
  params !! "dfid" = Some (PStr product_id)
  ∧ params !! "rpp" = Some (PInt rpp)
  ∧ params !! "exclude_self" = Some (PBool exclude_self)
  ∧ params !! "session_id" = Some (PStr sid)
  ∧ ∀ k, is_Some (params !! k) →
         k ∈ ["dfid"; "rpp"; "exclude_self"; "session_id"] ∨ is_filter_name k = true.
Proof.
  rewrite similar_products_params_stages. intros Hrun.
  rewrite (filter_stage_frame _ _ _ "dfid" eq_refl Hrun).
  rewrite (filter_stage_frame _ _ _ "rpp" eq_refl Hrun).
  rewrite (filter_stage_frame _ _ _ "exclude_self" eq_refl Hrun).
  rewrite (filter_stage_frame _ _ _ "session_id" eq_refl Hrun). unfold similar_base.
  repeat split; try done.
  intros k Hk. destruct (is_filter_name k) eqn:Hf; [by right|left].
  rewrite (filter_stage_frame _ _ _ k Hf Hrun) in Hk. unfold similar_base in Hk.
  repeat (apply lookup_insert_is_Some in Hk as [<-|[_ Hk]]; [set_solver|]).
  rewrite lookup_empty in Hk. by destruct Hk.
Qed.

Lemma similar_core_parameters_kept_witness :
  similar_products_params "0c9e" "sku-1" 10 true (PDict [("dfid", PStr "sku-2")])
  = inr sample_similar
  ∧ sample_similar !! "dfid" = Some (PStr "sku-1").
Proof.
  split; [reflexivity|].
  by destruct (similar_core_parameters_kept "0c9e" "sku-1" 10 true
                 (PDict [("dfid", PStr "sku-2")]) sample_similar eq_refl) as (Hd & _).
Defined.

(** X17. When several filter entries flatten to the same parameter name, the
    request carries the value of the last one in iteration order; a filter
    name no entry flattens to is absent, and there are at most as many
    filter parameters as flattened entries. *)
Theorem filters_later_entry_wins (sid query : string) (page rpp : Z)
    (indices sort facets query_name : pyval) (fs : list (string * pyval))
    (params : gmap string pyval) :
  search_params sid query page rpp indices (PDict fs) sort facets query_name = inr params →
  (∀ before name value after,
     flatten_filters fs = before ++ (name, value) :: after →
     name ∉ after.*1 →
     params !! name = Some value)
  ∧ (∀ name, is_filter_name name = true → name ∉ (flatten_filters fs).*1 →
             params !! name = None)
  ∧ (size (filter_params params) ≤ length (flatten_filters fs))%nat.
Proof.
  intros Hrun. apply search_filter_params in Hrun.
  assert (Hlookup : ∀ name, is_filter_name name = true →
            params !! name
            = list_to_map (M := gmap string pyval) (reverse (flatten_filters fs)) !! name).
  { intros name Hname. rewrite <- Hrun. unfold filter_params.
    rewrite map_lookup_filter. destruct (params !! name); simpl; [|done].
    by rewrite option_guard_True. }
  split; [|split].
  - intros before name value after Hsplit Hafter.
    rewrite Hlookup by (apply (flatten_filters_names fs (name, value)); rewrite Hsplit;
                        apply elem_of_app; right; constructor).
    rewrite Hsplit, reverse_app, reverse_cons, <- app_assoc, list_to_map_app.
    rewrite lookup_union_r.
    + simpl. by rewrite lookup_insert_eq.
    + apply not_elem_of_list_to_map. by rewrite fmap_reverse, elem_of_reverse.
  - intros name Hname Hnotin. rewrite Hlookup by done.
    apply not_elem_of_list_to_map. by rewrite fmap_reverse, elem_of_reverse.
  - rewrite Hrun. rewrite <- (length_reverse (flatten_filters fs)).
    generalize (reverse (flatten_filters fs)). intros l.
    induction l as [|[k v] l IH]; simpl; [by rewrite map_size_empty|].
    destruct (list_to_map (M := gmap string pyval) l !! k) eqn:Hk.
    + rewrite map_size_insert_Some by done. lia.
    + rewrite map_size_insert_None by done. lia.
Qed.

Lemma filters_later_entry_wins_witness :
  search_params "6f1c7a52" "shoes" 1 20 PNone clashing_filters PNone PNone PNone
  = inr sample_clashing
  ∧ sample_clashing !! "filter[a][b][]" = Some (PInt 2).
Proof.
  split; [reflexivity|].
  destruct (filters_later_entry_wins "6f1c7a52" "shoes" 1 20 PNone PNone PNone PNone
              [("a", PDict [("b][", PInt 1)]); ("a][b", PInt 2)] sample_clashing eq_refl)
    as (Hlast & _).
  apply (Hlast [("filter[a][b][]", PInt 1)] "filter[a][b][]" (PInt 2) []).
  - reflexivity.
  - apply not_elem_of_nil.
Defined.

End SearchCasesFacts.

(** ** Facts about the command line of the search tool *)
Module SearchCliFacts.
Import Py Search SearchFacts SearchCases SearchCasesFacts SearchCli.

Lemma printing_nil w : printing [] w = w.
Proof. destruct w. unfold printing. simpl. by rewrite app_nil_r. Qed.

Lemma printing_app l1 l2 w : printing l2 (printing l1 w) = printing (l1 ++ l2) w.
Proof. unfold printing. simpl. by rewrite app_assoc. Qed.

Lemma for_each_cons {A} (body : A → M world unit) x l w :
  for_each body (x :: l) w
  = match body x w with
    | (w', inr _) => for_each body l w'
    | (w', inl e) => (w', inl e)
    end.
Proof. reflexivity. Qed.

Lemma enumerate_from_cons {A} start (x : A) l :
  enumerate_from start (x :: l) = (start, x) :: enumerate_from (S start) l.
Proof. reflexivity. Qed.

Lemma only_prints_ret {A} (a : A) : only_prints (mret a).
Proof. intros w. exists []. by rewrite printing_nil. Qed.

Lemma only_prints_lift {A} (r : exn + A) : only_prints (lift r).
Proof. intros w. exists []. by rewrite printing_nil. Qed.

Lemma only_prints_print line : report_line line → only_prints (print line).
Proof. intros Hline w. exists [line]. split; [done|]. by constructor. Qed.

Lemma only_prints_bind {A B} (m : M world A) (k : A → M world B) :
  only_prints m → (∀ a, only_prints (k a)) → only_prints (m ≫= k).
Proof.
  intros Hm Hk w. destruct (Hm w) as (l1 & H1 & Hl1). unfold mbind, M_bind.
  destruct (m w) as [w1 [e|a]]; simpl in *; subst w1; [by exists l1|].
  destruct (Hk a (printing l1 w)) as (l2 & H2 & Hl2). exists (l1 ++ l2).
  split; [by rewrite H2, printing_app|]. by apply Forall_app.
Qed.

Lemma only_prints_for_each {A} (body : A → M world unit) l :
  (∀ x, only_prints (body x)) → only_prints (for_each body l).
Proof.
  intros Hbody. induction l as [|x l IH]; [apply only_prints_ret|].
  apply only_prints_bind; [apply Hbody|]. by intros _.
Qed.

Ltac prints :=
  repeat first
    [ apply only_prints_bind; [|intros ?]
    | apply only_prints_for_each; intros ?
    | apply only_prints_lift
    | apply only_prints_print; [reflexivity]
    | apply only_prints_ret
    | match goal with |- only_prints (if ?b then _ else _) => destruct b end
    | match goal with |- only_prints (let '(_, _) := ?p in _) => destruct p end
    | match goal with |- only_prints (match ?p with (_, _) => _ end) => destruct p end ].

Lemma print_item_only_prints E idx item : only_prints (print_item E idx item).
Proof. unfold print_item. prints. Qed.

Lemma print_facet_only_prints E facet : only_prints (print_facet E facet).
Proof. unfold print_facet. prints. Qed.

Lemma print_results_only_prints E results show_facets :
  only_prints (print_results E results show_facets).
Proof. unfold print_results. prints. Qed.

Section Unfolded.
Variable E : env.

Lemma cli_main_eq a w :
  main E a w
  = match main_try E a w with
    | (w', inr _) => (w', inr 0)
    | (w', inl e) => (printing ["Error: " +:+ str_exn e] w', inr 1)
    end.
Proof.
  unfold main, try_except. unfold mbind at 1, M_bind at 1.
  by destruct (main_try E a w) as [w' [e|[]]].
Qed.

Lemma main_try_search a w :
  arg_suggest a = false →
  main_try E a w
  = match loads_if_given E (arg_filter a) with
    | inl e => (w, inl e)
    | inr filters =>
        match loads_if_given E (arg_sort a) with
        | inl e => (w, inl e)
        | inr sort =>
            match perform (client_env E)
                    (new_client (arg_hashid a) (arg_token a) (arg_zone a))
                    (CallSearch (arg_query a) (arg_page a) (arg_rpp a) (indices_of a)
                       filters sort PNone PNone) (net w) with
            | (n, inl e) => ({| net := n; stdout := stdout w |}, inl e)
            | (n, inr results) =>
                print_results E results true {| net := n; stdout := stdout w |}
            end
        end
    end.
Proof.
  intros Hmode. unfold main_try. rewrite Hmode.
  unfold mbind at 1, M_bind at 1, lift at 1.
  destruct (loads_if_given E (arg_filter a)) as [e|filters]; [done|].
  unfold mbind at 1, M_bind at 1, lift at 1.
  destruct (loads_if_given E (arg_sort a)) as [e|sort]; [done|].
  unfold mbind at 1, M_bind at 1, on_net. simpl perform.
  by destruct (search _ _ _ _ _ _ _ _ _ _ _) as [n [e|results]].
Qed.

Lemma main_try_suggest a w :
  arg_suggest a = true →
  main_try E a w
  = match perform (client_env E)
            (new_client (arg_hashid a) (arg_token a) (arg_zone a))
            (CallSuggest (arg_query a) (indices_of a)) (net w) with
    | (n, inl e) => ({| net := n; stdout := stdout w |}, inl e)
    | (n, inr suggestions) =>
        match py_iter suggestions with
        | inl e => (printing [nl +:+ "Suggestions:"] {| net := n; stdout := stdout w |}, inl e)
        | inr suggestions =>
            for_each (λ suggestion, print ("- " +:+ py_str E suggestion)) suggestions
              (printing [nl +:+ "Suggestions:"] {| net := n; stdout := stdout w |})
        end
    end.
Proof.
  intros Hmode. unfold main_try. rewrite Hmode.
  unfold mbind at 1, M_bind at 1, on_net. simpl perform.
  destruct (suggest _ _ _ _ _) as [n [e|suggestions]]; [done|].
  unfold mbind at 1, M_bind at 1, print at 1.
  unfold mbind at 1, M_bind at 1, lift at 1.
  by destruct (py_iter suggestions).
Qed.

End Unfolded.

(** A family whose argument is absent leaves no parameter in the request. *)
Lemma family_absent sid query page rpp indices filters sort facets query_name params :
  search_params sid query page rpp indices filters sort facets query_name = inr params →
  (truthy filters = false → filter_params params = ∅)
  ∧ (truthy sort = false → sort_params params = ∅)
  ∧ (truthy facets = false → facet_params params = ∅).
Proof.
  intros (p1 & p2 & p3 & Hp1 & Hp2 & Hp3 & ->)%search_params_inv.
  assert (Hqn : ∀ k, k ≠ "query_name" →
            (if truthy query_name then <["query_name" := query_name]> p3 else p3) !! k
            = p3 !! k).
  { intros k Hk. destruct (truthy query_name); [|done]. by rewrite lookup_insert_ne. }
  split; [|split]; intros Habsent; apply map_empty_filter_2; intros k v Hkv Hname;
    simpl in Hname; rewrite Hqn in Hkv by (by intros ->).
  - destruct (filter_name_not_indexed k Hname) as [Hsort Hfacet].
    rewrite (indexed_stage_frame _ _ _ _ k Hfacet Hp3) in Hkv.
    rewrite (indexed_stage_frame _ _ _ _ k Hsort Hp2) in Hkv.
    rewrite (filter_stage_absent _ _ _ Habsent Hp1) in Hkv.
    rewrite search_base_lookup in Hkv by tauto. done.
  - rewrite (indexed_stage_frame _ _ _ _ k (sort_name_not_facet k Hname) Hp3) in Hkv.
    rewrite (indexed_stage_absent _ _ _ _ Habsent Hp2) in Hkv.
    rewrite (after_filters_lookup _ _ _ _ _ _ _ k Hp1) in Hkv by tauto. done.
  - rewrite (indexed_stage_absent _ _ _ _ Habsent Hp3) in Hkv.
    rewrite (indexed_stage_frame _ _ _ _ k (facet_name_not_sort k Hname) Hp2) in Hkv.
    rewrite (after_filters_lookup _ _ _ _ _ _ _ k Hp1) in Hkv by tauto. done.
Qed.

Lemma loads_if_given_absent E o v :
  given o = None → loads_if_given E o = inr v → v = PNone.
Proof. unfold loads_if_given. intros ->. by intros [= <-]. Qed.

Lemma indices_of_lookup a :
  (if truthy (indices_of a) then Some (indices_of a) else None)
  = (λ index, PList [PStr index]) <$> given (arg_index a).
Proof. unfold indices_of. by destruct (given (arg_index a)). Qed.

Lemma print_results_net E results show_facets w :
  net (print_results E results show_facets w).1 = net w.
Proof. by destruct (print_results_only_prints E results show_facets w) as (lines & -> & _). Qed.

(** X18. In suggest mode the command line sends exactly one request, a GET to
    /_suggest, whose parameters are query, session_id and, only when --index
    is a non-empty string, indices[] holding the one-element list of that
    index; the run does not depend on --filter, --sort, --page or --rpp
    (they are not even parsed). *)
Theorem suggest_mode_request (E : env) (a : args) (w : world) :
  arg_suggest a = true →
  let run := main E a w in
  let client := new_client (arg_hashid a) (arg_token a) (arg_zone a) in
  (∃ params,
     sent (net run.1) = sent (net w) ++ [get_request client "/_suggest" params]
     ∧ (∀ k, is_Some (params !! k)
             ↔ k = "query" ∨ k = "session_id"
               ∨ (k = "indices[]" ∧ is_Some (given (arg_index a))))
     ∧ params !! "query" = Some (PStr (arg_query a))
     ∧ params !! "indices[]" = (λ index, PList [PStr index]) <$> given (arg_index a))
  ∧ (∀ a', arg_hashid a' = arg_hashid a → arg_token a' = arg_token a →
           arg_zone a' = arg_zone a → arg_query a' = arg_query a →
           arg_index a' = arg_index a → arg_suggest a' = true →
           main E a' w = main E a w).
Proof.
  intros Hmode. simpl. split.
  - exists (suggest_params (uuid4_str (client_env E) (uuid_draws (net w)))
              (arg_query a) (indices_of a)).
    split; [|split; [|split]].
    + rewrite cli_main_eq, main_try_suggest, perform_eq by done. simpl.
      destruct (answer _ _ _) as [e|suggestions]; simpl; [done|].
      destruct (py_iter suggestions) as [e|l]; simpl; [done|].
      destruct (only_prints_for_each
                  (λ suggestion, print ("- " +:+ py_str E suggestion)) l
                  (λ x, only_prints_print ("- " +:+ py_str E x) eq_refl)
                  (printing [nl +:+ "Suggestions:"]
                     {| net := {| uuid_draws := S (uuid_draws (net w));
                                  sent := sent (net w) ++
                                    [get_request
                                       (new_client (arg_hashid a) (arg_token a) (arg_zone a))
                                       "/_suggest"
                                       (suggest_params
                                          (uuid4_str (client_env E) (uuid_draws (net w)))
                                          (arg_query a) (indices_of a))] |};
                        stdout := stdout w |})) as (lines & Hlines & _).
      destruct (for_each _ _ _) as [w' [e|[]]]; simpl in *; by subst w'.
    + intros k. unfold suggest_params, indices_of.
      destruct (given (arg_index a)) as [index|]; simpl;
        rewrite !lookup_insert_is_Some, lookup_empty;
        (split; [intros [<-|[_ [<-|[_ H]]]]|]).
      all: try (destruct H as [<-|[_ H]]).
      all: try (destruct H as [? [=]]).
      all: eauto 10.
      * intros [->|[->|[-> _]]]; [right; split; [done|]; right; split; [done|]; by left
                                 |right; split; [done|]; by left|by left].
      * intros [->|[->|[_ [? [=]]]]]; [right; split; [done|]; by left|by left].
    + unfold suggest_params. by destruct (truthy (indices_of a)).
    + rewrite <- indices_of_lookup. unfold suggest_params.
      destruct (truthy (indices_of a)); [by rewrite lookup_insert_eq|done].
  - intros a' Hh Ht Hz Hq Hi Hs.
    rewrite (cli_main_eq E a'), (cli_main_eq E a), !main_try_suggest by done.
    unfold indices_of. by rewrite Hh, Ht, Hz, Hq, Hi.
Qed.

Lemma suggest_mode_request_witness :
  main (env_shop (PList [PStr "shoes"; PStr "shorts"])) suggest_args initial_world
  = main (env_shop (PList [PStr "shoes"; PStr "shorts"])) sample_suggest_twin initial_world.
Proof.
  symmetry.
  by apply (proj2 (suggest_mode_request (env_shop (PList [PStr "shoes"; PStr "shorts"]))
                     suggest_args initial_world eq_refl)).
Defined.

(** X19. In search mode, if json.loads raises on a non-empty --filter, or on a
    non-empty --sort after the filter was parsed, the command line exits
    with status 1 having printed only 'Error: <message>'; no request is sent
    and no session identifier is drawn. *)
Theorem malformed_json_is_fatal (E : env) (a : args) (w : world) (e : exn) :
  arg_suggest a = false →
  loads_if_given E (arg_filter a) = inl e
  ∨ ((∃ filters, loads_if_given E (arg_filter a) = inr filters)
     ∧ loads_if_given E (arg_sort a) = inl e) →
  main E a w = (printing ["Error: " +:+ str_exn e] w, inr 1).
Proof.
  intros Hmode Hbad. rewrite cli_main_eq, main_try_search by done.
  destruct Hbad as [->|[[filters ->] ->]]; reflexivity.
Qed.

Lemma malformed_json_is_fatal_witness :
  main (env_shop sample_results) sample_args initial_world
  = (printing ["Error: Expecting property name"] initial_world, inr 1).
Proof.
  apply (malformed_json_is_fatal (env_shop sample_results) sample_args initial_world
           (JSONDecodeError "Expecting property name") eq_refl).
  left. reflexivity.
Defined.

(** X20. In search mode the command line sends at most one request, a GET to
    /_search with query, page and rpp taken from the arguments, indices[]
    present only for a non-empty --index, never a query_name and never a
    facet parameter; an absent or empty --filter (or --sort) leaves no
    filter (or sort) parameter. *)
Theorem cli_search_request (E : env) (a : args) (w : world) :
  arg_suggest a = false →
  let run := main E a w in
  let client := new_client (arg_hashid a) (arg_token a) (arg_zone a) in
  sent (net run.1) = sent (net w)
  ∨ ∃ params,
      sent (net run.1) = sent (net w) ++ [get_request client "/_search" params]
      ∧ params !! "query" = Some (PStr (arg_query a))
      ∧ params !! "page" = Some (PInt (arg_page a))
      ∧ params !! "rpp" = Some (PInt (arg_rpp a))
      ∧ params !! "indices[]" = (λ index, PList [PStr index]) <$> given (arg_index a)
      ∧ params !! "query_name" = None
      ∧ facet_params params = ∅
      ∧ (given (arg_filter a) = None → filter_params params = ∅)
      ∧ (given (arg_sort a) = None → sort_params params = ∅).
Proof.
  intros Hmode. simpl. rewrite cli_main_eq, main_try_search by done.
  destruct (loads_if_given E (arg_filter a)) as [e|filters] eqn:Hfilters; [by left|].
  destruct (loads_if_given E (arg_sort a)) as [e|sort] eqn:Hsort; [by left|].
  rewrite perform_eq. simpl.
  destruct (search_params _ _ _ _ _ _ _ _ _) as [e|params] eqn:Hparams; [by left|].
  right. exists params.
  pose proof (λ k, search_params_frame _ _ _ _ _ _ _ _ _ _ k Hparams) as Hframe.
  destruct (family_absent _ _ _ _ _ _ _ _ _ _ Hparams) as (Hf & Hs & Hfa).
  split; [|repeat split].
  - destruct (answer _ _ _) as [e|results]; simpl; [done|].
    destruct (print_results E results true _) as [w' [e|[]]] eqn:Hprint;
      apply (f_equal (λ r, net r.1)) in Hprint;
      rewrite print_results_net in Hprint; simpl in *; by rewrite <- Hprint.
  - rewrite Hframe by done. unfold search_base. by destruct (truthy (indices_of a)).
  - rewrite Hframe by done. unfold search_base. by destruct (truthy (indices_of a)).
  - rewrite Hframe by done. unfold search_base. by destruct (truthy (indices_of a)).
  - rewrite <- indices_of_lookup.
    rewrite Hframe by done. unfold search_base.
    destruct (truthy (indices_of a)); [by rewrite lookup_insert_eq|done].
  - apply search_params_inv in Hparams as (p1 & p2 & p3 & Hp1 & Hp2 & Hp3 & ->).
    simpl. destruct (not_family_name "query_name" eq_refl eq_refl eq_refl)
      as (_ & Hsort' & Hfacet').
    rewrite (indexed_stage_frame _ _ _ _ _ Hfacet' Hp3).
    rewrite (indexed_stage_frame _ _ _ _ _ Hsort' Hp2).
    rewrite (filter_stage_frame _ _ _ "query_name" eq_refl Hp1).
    unfold search_base. by destruct (truthy (indices_of a)).
  - by apply Hfa.
  - intros Hnone. apply Hf. by rewrite (loads_if_given_absent _ _ _ Hnone Hfilters).
  - intros Hnone. apply Hs. by rewrite (loads_if_given_absent _ _ _ Hnone Hsort).
Qed.

Lemma cli_search_request_witness :
  ∃ params,
    sent (net (main (env_shop sample_results) plain_args initial_world).1)
    = [get_request (new_client "abc123" "secret" "eu1") "/_search" params]
    ∧ params !! "indices[]" = None
    ∧ filter_params params = ∅.
Proof.
  destruct (cli_search_request (env_shop sample_results) plain_args initial_world eq_refl)
    as [Hnone|(params & Hsent & _ & _ & _ & Hi & _ & _ & Hf & _)].
  - apply (f_equal length) in Hnone. vm_compute in Hnone. discriminate Hnone.
  - exists params. split; [exact Hsent|]. split; [exact Hi|]. by apply Hf.
Defined.



(** What the loop prints for an item it accepts. *)
Lemma print_item_printable E idx item w :
  printable_item item →
  ∃ lines,
    print_item E idx item w = (printing lines w, inr tt)
    ∧ length lines = item_lines item
    ∧ (∀ d title, item = PDict d → dict_lookup "title" d = Some title →
         head lines = Some (nl +:+ pretty idx +:+ ". " +:+ py_str E title))
    ∧ (∀ d s, item = PDict d → dict_lookup "description" d = Some (PStr s) →
         lines !! 1%nat = Some ("   Description: " +:+ string_take 100 s +:+ "..."))
    ∧ (∀ d id, item = PDict d → dict_lookup "id" d = Some id →
         last lines = Some ("   ID: " +:+ py_str E id)).
Proof.
  intros (d & -> & [title Htitle] & [id Hid] & Hdescription).
  unfold print_item, mbind, M_bind, lift, print, mret, M_ret. simpl.
  unfold dict_subscript. rewrite Htitle, Hid.
  destruct (dict_lookup "description" d) as [description|] eqn:Hd;
    destruct (dict_lookup "price" d) as [price|] eqn:Hp; simpl.
  1-2: destruct description; try done; simpl.
  all: rewrite ?printing_app; eexists; (split; [reflexivity|]).
  all: split; [reflexivity|].
  all: split; [intros ? ? [= <-] H; rewrite Htitle in H; by injection H as <-|].
  all: split; [|intros ? ? [= <-] H; rewrite Hid in H; by injection H as <-].
  all: intros ? ? [= <-] H; rewrite Hd in H; try done; by injection H as <-.
Qed.

Lemma for_each_printable E items : ∀ start w,
  Forall printable_item items →
  ∃ lines,
    for_each (λ '(idx, item), print_item E idx item) (enumerate_from start items) w
    = (printing lines w, inr tt)
    ∧ length lines = sum_list (item_lines <$> items)
    ∧ ∀ i d title, items !! i = Some (PDict d) → dict_lookup "title" d = Some title →
        (nl +:+ pretty (start + i)%nat +:+ ". " +:+ py_str E title) ∈ lines.
Proof.
  induction items as [|item items IH]; intros start w Hitems.
  { exists []. by rewrite printing_nil. }
  apply Forall_cons in Hitems as [Hitem Hitems].
  rewrite enumerate_from_cons, for_each_cons.
  destruct (print_item_printable E start item w Hitem)
    as (l1 & -> & Hlen1 & Hhead & _).
  destruct (IH (S start) (printing l1 w) Hitems) as (l2 & -> & Hlen2 & Htitles).
  exists (l1 ++ l2). split; [by rewrite printing_app|]. split.
  { by rewrite length_app, Hlen1, Hlen2. }
  intros [|i] d title Hi Htitle; simpl in Hi.
  - injection Hi as ->. rewrite Nat.add_0_r. apply elem_of_app. left.
    specialize (Hhead d title eq_refl Htitle).
    destruct l1 as [|line l1]; [done|]. injection Hhead as ->. constructor.
  - apply elem_of_app. right. replace (start + S i)%nat with (S start + i)%nat by lia.
    by apply (Htitles i d).
Qed.

(** X21. For results with a total and a list of items that are dicts with a
    title and an id (a description, if present, being a string or a list),
    and no facet section to show, print_results returns normally having
    printed the two header lines and, per item, two lines plus one for a
    description and one for a price; the items are numbered from 1. *)
Theorem print_results_lists_items (E : env) (d : list (string * pyval))
    (total : pyval) (items : list pyval) (show_facets : bool) (w : world) :
  dict_lookup "total" d = Some total →
  dict_lookup "results" d = Some (PList items) →
  Forall printable_item items →
  show_facets = false ∨ no_facets (PDict d) →
  ∃ lines,
    print_results E (PDict d) show_facets w = (printing lines w, inr tt)
    ∧ length lines = (2 + sum_list (item_lines <$> items))%nat
    ∧ lines !! 0%nat = Some (nl +:+ "Found " +:+ py_str E total +:+ " results")
    ∧ lines !! 1%nat = Some (nl +:+ "Items:")
    ∧ ∀ i item title,
        items !! i = Some (PDict item) → dict_lookup "title" item = Some title →
        (nl +:+ pretty (S i) +:+ ". " +:+ py_str E title) ∈ lines.
Proof.
  intros Htotal Hresults Hitems Hfacets.
  unfold print_results. unfold mbind at 1, M_bind at 1, lift at 1. simpl py_subscript.
  unfold dict_subscript at 1. rewrite Htotal.
  unfold mbind at 1, M_bind at 1, print at 1.
  unfold mbind at 1, M_bind at 1, print at 1.
  unfold mbind at 1, M_bind at 1, lift at 1. unfold dict_subscript at 1. rewrite Hresults.
  unfold mbind at 1, M_bind at 1, lift at 1. simpl py_iter.
  unfold mbind at 1, M_bind at 1.
  destruct (for_each_printable E items 1
              (printing [nl +:+ "Items:"]
                 (printing [nl +:+ "Found " +:+ py_str E total +:+ " results"] w)) Hitems)
    as (lines & -> & Hlen & Htitles).
  rewrite !printing_app.
  exists (([nl +:+ "Found " +:+ py_str E total +:+ " results"] ++ [nl +:+ "Items:"])
          ++ lines).
  split; [|split; [|split; [|split]]].
  - destruct Hfacets as [->|Hnone]; [done|]. destruct show_facets; [|done].
    unfold mbind, M_bind, lift. simpl. unfold no_facets in Hnone. unfold dict_subscript.
    destruct (dict_lookup "facets" d) as [facets|]; simpl; [|done]. by rewrite Hnone.
  - rewrite length_app. simpl. lia.
  - done.
  - done.
  - intros i item title Hi Htitle. apply elem_of_app. right. by apply (Htitles i item).
Qed.

Lemma print_results_lists_items_witness :
  ∃ lines,
    print_results (env_shop PNone) sample_results true initial_world
    = (printing lines initial_world, inr tt)
    ∧ length lines = 8%nat
    ∧ (nl +:+ "2. Walker") ∈ lines.
Proof.
  destruct (print_results_lists_items (env_shop PNone)
              [("total", PInt 2);
               ("results",
                PList [PDict [("title", PStr "Runner"); ("description", PStr "A shoe");
                              ("price", PInt 50); ("id", PStr "sku-1")];
                       PDict [("title", PStr "Walker"); ("id", PStr "sku-2")]])]
              (PInt 2)
              [PDict [("title", PStr "Runner"); ("description", PStr "A shoe");
                      ("price", PInt 50); ("id", PStr "sku-1")];
               PDict [("title", PStr "Walker"); ("id", PStr "sku-2")]]
              true initial_world eq_refl eq_refl)
    as (lines & Hrun & Hlen & _ & _ & Htitles).
  - repeat constructor; eexists; (split; [reflexivity|]);
      repeat split; try (by eexists); exact I.
  - right. exact I.
  - exists lines. split; [exact Hrun|]. split; [exact Hlen|].
    apply (Htitles 1%nat [("title", PStr "Walker"); ("id", PStr "sku-2")] (PStr "Walker"));
      reflexivity.
Defined.



(** X23. In search mode, when the service answers 200 with a JSON value from
    which 'total' cannot be read (a dict without that key, a list, ...), the
    command line exits with status 1 although the request was sent and
    succeeded, printing only 'Error: <message of the exception>'. *)
Theorem unusable_answer_is_fatal (E : env) (a : args) (w : world)
    (filters sort results : pyval) (e : exn) :
  arg_suggest a = false →
  loads_if_given E (arg_filter a) = inr filters → filters_ok filters →
  loads_if_given E (arg_sort a) = inr sort → entries_ok sort →
  (∀ log rq, remote (client_env E) log rq = Responds 200 "OK" (Some results)) →
  py_subscript results "total" = inl e →
  let run := main E a w in
  run.2 = inr 1
  ∧ stdout run.1 = stdout w ++ ["Error: " +:+ str_exn e]
  ∧ ∃ rq, sent (net run.1) = sent (net w) ++ [rq].
Proof.
  intros Hmode Hfilters Hfok Hsort Hsok Hremote Htotal. simpl.
  rewrite cli_main_eq, main_try_search, Hfilters, Hsort, perform_eq by done. simpl.
  destruct (search_params _ _ _ _ _ _ _ _ _) as [e'|params] eqn:Hparams.
  { assert (∃ params,
              search_params (uuid4_str (client_env E) (uuid_draws (net w))) (arg_query a)
                (arg_page a) (arg_rpp a) (indices_of a) filters sort PNone PNone
              = inr params) as [params Hp].
    { apply search_params_accepts. repeat split; try done. by left. }
    congruence. }
  assert (answer (client_env E) (sent (net w))
            (get_request (new_client (arg_hashid a) (arg_token a) (arg_zone a))
               "/_search" params) = inr results) as ->.
  { apply answer_ok. exists 200, "OK". split; [apply Hremote|lia]. }
  unfold print_results. unfold mbind at 1, M_bind at 1, lift at 1. rewrite Htotal.
  simpl. repeat split. by eexists.
Qed.

Lemma unusable_answer_is_fatal_witness :
  (main (env_shop (PList [])) plain_args initial_world).2 = inr 1
  ∧ stdout (main (env_shop (PList [])) plain_args initial_world).1
    = ["Error: list indices must be integers or slices, not str"].
Proof.
  destruct (unusable_answer_is_fatal (env_shop (PList [])) plain_args initial_world
              PNone PNone (PList [])
              (TypeError "list indices must be integers or slices, not str")
              eq_refl eq_refl (or_introl eq_refl) eq_refl (or_introl eq_refl)
              (λ _ _, eq_refl) eq_refl) as (Hstatus & Hout & _).
  split; [exact Hstatus|exact Hout].
Defined.



End SearchCliFacts.
